(** * Platform ticket booking: reservation-and-ticket lifecycle engine

    A shallow embedding of the booking core of [app.py]: the JSON record
    store, the availability check, the fare calculation, booking creation,
    payment settlement and the lazy ticket expiry, followed by the
    properties stated about them. *)

From stdpp Require Import base option list strings pretty gmap.
From Stdlib Require Import ZArith Lia.

Local Open Scope string_scope.
Local Open Scope list_scope.
Local Open Scope Z_scope.

(** ** The datetime library

    [app.py] stores timestamps as the strings produced by
    [datetime.isoformat()] and reads them back with
    [datetime.fromisoformat].  Both belong to Python's standard library, so
    they are an interface here.  An instant is a number of microseconds
    since 1970-01-01T00:00:00; a parsed datetime also records whether the
    text carried a UTC offset, because comparing it with the naive
    [datetime.now()] then raises [TypeError].  Durations and datetimes are
    range-checked as in Python: arithmetic that leaves the range raises
    [OverflowError], which is [None] here. *)

Record datetime := mk_datetime { instant : Z; tzaware : bool }.

Class DateTime := {
  isoformat : Z → string;
  fromisoformat : string → option datetime
}.

(** [timedelta.min] and [timedelta.max], in microseconds: 999999999 days
    either way. *)
Definition timedelta_min : Z := -86399999913600000000.
Definition timedelta_max : Z := 86399999999999999999.

(** [datetime.min] (year 1) and [datetime.max] (the last microsecond of
    year 9999). *)
Definition datetime_min : Z := -62135596800000000.
Definition datetime_max : Z := 253402300799999999.

(** [timedelta(hours=h)], in microseconds; [None] when the duration is
    out of range. *)
Definition timedelta_hours (h : Z) : option Z :=
  let microseconds := h * 3600000000 in
  if bool_decide (timedelta_min ≤ microseconds ≤ timedelta_max)
  then Some microseconds else None.

(** [now + delta] for a datetime and a timedelta; [None] when the result is
    not a datetime of the years 1 to 9999. *)
Definition datetime_add (now delta : Z) : option Z :=
  let result := now + delta in
  if bool_decide (datetime_min ≤ result ≤ datetime_max) then Some result else None.

(** [now + timedelta(hours=h)] *)
Definition datetime_add_hours (now h : Z) : option Z :=
  timedelta_hours h ≫= datetime_add now.

(** [now > expiry] for a naive [now]: [None] stands for the [TypeError]
    raised on an offset-aware [expiry]. *)
Definition now_gt (now : Z) (expiry : datetime) : option bool :=
  if tzaware expiry then None else Some (instant expiry <? now).

(** ** Records of the JSON store

    The dictionaries of the four JSON files, with the fields and the field
    types the code writes: identifiers, counts and durations are Python
    integers, timestamps and statuses are strings. *)

Module Platform.
Record t := mk { platformNumber : Z; capacity : Z }.
End Platform.

Module Ticket.
Record t := mk {
  ticketId : Z;
  issueTime : string;
  expiryTime : string;
  status : string;
  platformNumber : Z
}.

(** [ticket["status"] = s] *)
Definition set_status (s : string) (ticket : t) : t :=
  mk (ticketId ticket) (issueTime ticket) (expiryTime ticket) s
     (platformNumber ticket).
End Ticket.

Module Booking.
Record t := mk {
  bookingId : Z;
  userId : Z;
  platformNumber : Z;
  bookingTime : string;
  selectedDuration : Z;
  ticketId : Z
}.
End Booking.

Module Payment.
Record t := mk {
  paymentId : Z;
  bookingId : Z;
  amount : Z;
  paymentStatus : string;
  paymentTime : string
}.
End Payment.

(** The four JSON files the core reads and writes. *)
Record Store := mk_store {
  platforms : list Platform.t;
  bookings : list Booking.t;
  tickets : list Ticket.t;
  payments : list Payment.t
}.

(** The ticket statuses the code writes. *)
Definition PendingPayment : string := "Pending Payment".
Definition Active : string := "Active".
Definition Expired : string := "Expired".
Definition Cancelled : string := "Cancelled".

(** ** Storage helpers *)

(** [next((x for x in data if key(x) == v), None)] *)
Definition find_by {A} (key : A → Z) (v : Z) (data : list A) : option A :=
  snd <$> list_find (λ x, key x = v) data.

(** [get_next_id(data, key_name)] *)
Definition get_next_id {A} (data : list A) (key : A → Z) : Z :=
  match data with
  | [] => 1
  | x :: rest => foldl Z.max (key x) (key <$> rest) + 1
  end.

(** ** Services *)

(** The loop of [check_platform_availability] that counts the bookings of a
    platform whose ticket is active. *)
Definition counts_as_active (tickets : list Ticket.t) (platform_number : Z)
    (b : Booking.t) : bool :=
  if bool_decide (Booking.platformNumber b = platform_number) then
    let ticket_id := Booking.ticketId b in
    if bool_decide (ticket_id ≠ 0) then
      match find_by Ticket.ticketId ticket_id tickets with
      | Some t => bool_decide (Ticket.status t = Active)
      | None => false
      end
    else false
  else false.

Definition active_count (bookings : list Booking.t) (tickets : list Ticket.t)
    (platform_number : Z) : Z :=
  foldl (λ n b, if counts_as_active tickets platform_number b then n + 1 else n)
        0 bookings.

Definition check_platform_availability (s : Store) (platform_number : Z)
    : bool * string :=
  match find_by Platform.platformNumber platform_number (platforms s) with
  | None => (false, "Platform not found.")
  | Some platform =>
      let capacity := Platform.capacity platform in
      if bool_decide (capacity ≤ active_count (bookings s) (tickets s) platform_number)
      then (false, "Platform " +:+ pretty platform_number +:+ " is full.")
      else (true, "Available")
  end.

Definition calculate_amount (duration_hours : Z) : Z :=
  let rate_per_hour := 10 in
  rate_per_hour * duration_hours.

Section Services.
Context `{DateTime}.

(** [create_booking]; the three arguments [now_booking], [now_issue] and
    [now_expiry] are the three successive readings of [datetime.now()].
    The result is the returned booking with the store afterwards; when the
    expiry time is out of range the call raises [OverflowError] before
    anything is saved, which is [None] with the store as it was. *)
Definition create_booking (user_id platform_number selected_duration : Z)
    (now_booking now_issue now_expiry : Z) (s : Store) : option Booking.t * Store :=
  let booking_id := get_next_id (bookings s) Booking.bookingId in
  let ticket_id := get_next_id (tickets s) Ticket.ticketId in
  let booking_time := isoformat now_booking in
  let issue_time := isoformat now_issue in
  match datetime_add_hours now_expiry selected_duration with
  | None => (None, s)
  | Some expiry =>
      let expiry_time := isoformat expiry in
      let ticket :=
        Ticket.mk ticket_id issue_time expiry_time PendingPayment platform_number in
      let tickets' := tickets s ++ [ticket] in
      let booking :=
        Booking.mk booking_id user_id platform_number booking_time
                   selected_duration ticket_id in
      let bookings' := bookings s ++ [booking] in
      (Some booking, mk_store (platforms s) bookings' tickets' (payments s))
  end.

(** [update_ticket_state]: the dictionary is mutated in place, so the
    function returns the ticket as it is afterwards.  Every exception of
    the [try] block ends in [pass]. *)
Definition update_ticket_state (now : Z) (ticket : Ticket.t) : Ticket.t :=
  if bool_decide (Ticket.status ticket = Active) then
    match fromisoformat (Ticket.expiryTime ticket) with
    | Some expiry =>
        match now_gt now expiry with
        | Some true => Ticket.set_status Expired ticket
        | Some false => ticket
        | None => ticket
        end
    | None => ticket
    end
  else ticket.
End Services.

(** [save_ticket]: the first stored ticket with the same identifier is
    replaced. *)
Definition save_ticket (ticket : Ticket.t) (s : Store) : Store :=
  let tickets' :=
    match list_find (λ t, Ticket.ticketId t = Ticket.ticketId ticket) (tickets s) with
    | Some (idx, _) => <[idx := ticket]> (tickets s)
    | None => tickets s
    end in
  mk_store (platforms s) (bookings s) tickets' (payments s).

Section Settlement.
Context `{DateTime}.

(** The body of [process_payment] after [success] has been decided. *)
Definition process_payment_with (success : bool) (booking_id amount : Z)
    (now : Z) (s : Store) : (bool * Payment.t) * Store :=
  let payment_id := get_next_id (payments s) Payment.paymentId in
  let payment_time := isoformat now in
  let payment_status := if success then "SUCCESS" else "FAILED" in
  let payment :=
    Payment.mk payment_id booking_id amount payment_status payment_time in
  let s1 := mk_store (platforms s) (bookings s) (tickets s) (payments s ++ [payment]) in
  let s2 :=
    match find_by Booking.bookingId booking_id (bookings s) with
    | Some booking =>
        let ticket_id := Booking.ticketId booking in
        match find_by Ticket.ticketId ticket_id (tickets s) with
        | Some ticket =>
            let ticket' :=
              if success then Ticket.set_status Active ticket
              else Ticket.set_status Cancelled ticket in
            save_ticket ticket' s1
        | None => s1
        end
    | None => s1
    end in
  ((success, payment), s2).

(** [process_payment]: the source fixes [success = True]. *)
Definition process_payment (booking_id amount : Z) (now : Z) (s : Store)
    : (bool * Payment.t) * Store :=
  let success := true in
  process_payment_with success booking_id amount now s.

(** The ticket part of the [ticket_details] view: the booking of the
    logged-in user is looked up, its ticket refreshed and saved. *)
Definition ticket_details (user_id booking_id : Z) (now : Z) (s : Store) : Store :=
  match find_by Booking.bookingId booking_id (bookings s) with
  | Some booking =>
      if bool_decide (Booking.userId booking ≠ user_id) then s
      else
        match find_by Ticket.ticketId (Booking.ticketId booking) (tickets s) with
        | Some ticket => save_ticket (update_ticket_state now ticket) s
        | None => s
        end
  | None => s
  end.

(** The POST branch of the [book] view: the booking is created only when
    the availability check allows it.  When [create_booking] raises, the
    store is left as it was. *)
Definition book (user_id platform_number duration : Z)
    (now_booking now_issue now_expiry : Z) (s : Store) : Store :=
  let '(available, msg) := check_platform_availability s platform_number in
  if negb available then s
  else
    snd (create_booking user_id platform_number duration
                        now_booking now_issue now_expiry s).
End Settlement.

(** ** Request sequences

    The requests that reach the core: a booking form post, a payment post
    and a ticket view.  Each carries the clock readings it observes. *)

Inductive op :=
| Book (user_id platform_number duration now_booking now_issue now_expiry : Z)
| Pay (booking_id amount now : Z)
| View (user_id booking_id now : Z).

Section Run.
Context `{DateTime}.

Definition step (s : Store) (o : op) : Store :=
  match o with
  | Book user_id platform_number duration now_booking now_issue now_expiry =>
      book user_id platform_number duration now_booking now_issue now_expiry s
  | Pay booking_id amount now => snd (process_payment booking_id amount now s)
  | View user_id booking_id now => ticket_details user_id booking_id now s
  end.

Definition run (ops : list op) (s : Store) : Store := foldl step s ops.
End Run.

(** The store of a fresh installation: the platform file is seeded or
    administered, the other files are empty lists. *)
Definition init (platforms : list Platform.t) : Store :=
  mk_store platforms [] [] [].

(** ** Quantities the properties speak about *)

(** The tickets of a platform that are in state [Active]. *)
Definition active_tickets (tickets : list Ticket.t) (platform_number : Z) : Z :=
  Z.of_nat (length (filter (λ t, Ticket.status t = Active
                                 ∧ Ticket.platformNumber t = platform_number)
                           tickets)).

(** The ticket a booking is linked to: the first stored ticket carrying the
    booking's [ticketId]. *)
Definition linked_ticket (s : Store) (b : Booking.t) : option Ticket.t :=
  find_by Ticket.ticketId (Booking.ticketId b) (tickets s).

(** The quantity the availability check is described by: the bookings of
    a platform whose linked ticket currently has status [Active].  The
    code computes [active_count] instead, with a loop. *)
Definition active_bookings (s : Store) (platform_number : Z) : Z :=
  Z.of_nat (length (filter
    (λ b, Booking.platformNumber b = platform_number
          ∧ Ticket.status <$> linked_ticket s b = Some Active)
    (bookings s))).

(** ** A clock for examples

    Timestamps are written as decimal microsecond counts; any other text
    does not parse. *)

Definition digit_of (c : Ascii.ascii) : option Z :=
  let n := Z.of_N (Ascii.N_of_ascii c) in
  if bool_decide (48 ≤ n ≤ 57) then Some (n - 48) else None.

Fixpoint parse_digits (acc : Z) (s : string) : option Z :=
  match s with
  | EmptyString => Some acc
  | String c rest =>
      match digit_of c with
      | Some d => parse_digits (10 * acc + d) rest
      | None => None
      end
  end.

Definition parse_micros (s : string) : option datetime :=
  match s with
  | EmptyString => None
  | String (Ascii.Ascii true false true true false true false false) rest =>
      (* a leading minus sign, character 45 *)
      match rest with
      | EmptyString => None
      | _ => (λ n, mk_datetime (- n) false) <$> parse_digits 0 rest
      end
  | _ => (λ n, mk_datetime n false) <$> parse_digits 0 s
  end.

Definition micros_clock : DateTime :=
  {| isoformat := pretty; fromisoformat := parse_micros |}.

(** A ticket of platform 1 issued at instant 0, used in examples. *)
Definition sample_ticket (status expiry_time : string) : Ticket.t :=
  Ticket.mk 1 "0" expiry_time status 1.

(** Two platforms with room for one ticket each, and the stores a user
    meets while booking platform 1 for two hours at instant 0, paying at
    instant 5, and looking at the ticket after it has run out. *)
Definition demo_platforms : list Platform.t :=
  [Platform.mk 1 1; Platform.mk 2 1].

Definition demo_booked : Store :=
  @run micros_clock [Book 7 1 2 0 0 0] (init demo_platforms).

Definition demo_paid : Store :=
  @run micros_clock [Pay 1 20 5] demo_booked.

Definition demo_expired : Store :=
  @run micros_clock [View 7 1 7200000001] demo_paid.

(** ** Consistency of the store

    What the booking workflow maintains between the booking file and the
    ticket file: bookings and tickets are created in pairs, ticket
    identifiers are positive and pairwise distinct. *)

Definition linked (b : Booking.t) (t : Ticket.t) : Prop :=
  Booking.ticketId b = Ticket.ticketId t
  ∧ Booking.platformNumber b = Ticket.platformNumber t.

Record consistent (s : Store) : Prop := mk_consistent {
  ticket_ids_distinct : NoDup (Ticket.ticketId <$> tickets s);
  ticket_ids_positive : Forall (λ t, 0 < Ticket.ticketId t) (tickets s);
  bookings_linked : Forall2 linked (bookings s) (tickets s)
}.

(** ** Statements that are examined below *)

Section Statements.
Context `{DateTime}.

(** After any committed booking, made by a caller that honours the
    availability check, no platform at all holds more active tickets than
    its capacity. *)
Definition capacity_respected_on_every_platform : Prop :=
  ∀ (plats : list Platform.t) (ops : list op)
    (user_id platform_number duration now_booking now_issue now_expiry : Z)
    (P : Platform.t),
    let s := run ops (init plats) in
    let s' := snd (create_booking user_id platform_number duration
                                  now_booking now_issue now_expiry s) in
    (check_platform_availability s platform_number).1 = true →
    P ∈ plats →
    active_tickets (tickets s') (Platform.platformNumber P) ≤ Platform.capacity P.

(** The ticket issued by a booking expires exactly [selected_duration]
    hours after its issue time. *)
Definition expiry_is_issue_plus_duration : Prop :=
  ∀ (user_id platform_number selected_duration : Z)
    (now_booking now_issue now_expiry : Z) (s : Store),
    let s' := snd (create_booking user_id platform_number selected_duration
                                  now_booking now_issue now_expiry s) in
    ∃ (ticket : Ticket.t) (issue expiry : datetime),
      tickets s' = tickets s ++ [ticket]
      ∧ fromisoformat (Ticket.issueTime ticket) = Some issue
      ∧ fromisoformat (Ticket.expiryTime ticket) = Some expiry
      ∧ Some (instant expiry - instant issue) = timedelta_hours selected_duration.

(** The status a ticket has in a store, looked up by identifier. *)
Definition status_of (s : Store) (ticket_id : Z) : option string :=
  Ticket.status <$> find_by Ticket.ticketId ticket_id (tickets s).

(** The edges of the ticket state machine. *)
Definition legal_edge (old new : string) : Prop :=
  (old = PendingPayment ∧ new = Active)
  ∨ (old = PendingPayment ∧ new = Cancelled)
  ∨ (old = Active ∧ new = Expired).

(** No request moves a stored ticket along anything but a legal edge. *)
Definition transitions_are_legal : Prop :=
  ∀ (plats : list Platform.t) (ops : list op) (o : op) (ticket_id : Z)
    (old new : string),
    let s := run ops (init plats) in
    status_of s ticket_id = Some old →
    status_of (step s o) ticket_id = Some new →
    old ≠ new →
    legal_edge old new.
End Statements.

(** ** Users, sessions and replies

    The user file, the Flask session a request sees, and what a view
    answers with: an optional flashed message with its category, and either
    a redirect to an endpoint, a rendered template, or the server error
    page of an exception that no view catches. *)

Module User.
Record t := mk { userId : Z; name : string; email : string; password : string }.
End User.

Module Session.
Record t := mk {
  user_id : option Z;
  user_name : option string;
  admin : bool;
  admin_name : option string;
  current_booking_id : option Z;
  current_amount : option Z
}.

(** [session.clear()] *)
Definition empty : t := mk None None false None None None.
End Session.

Inductive target :=
| Redirect (endpoint : string) (booking_id : option Z)
| Render (template : string)
| ServerError.

Record reply := mk_reply { flashed : option (string * string); goes_to : target }.

(** [str.strip], from Python's standard library. *)
Class FormText := { strip : string → string }.

(** [not x] for a session value that is absent or an integer. *)
Definition falsy (x : option Z) : bool :=
  match x with
  | None => true
  | Some n => bool_decide (n = 0)
  end.

(** A dict comprehension [{key(x): x for x in data}]: later items replace
    earlier ones under the same key. *)
Definition dict_by {A} (key : A → Z) (data : list A) : gmap Z A :=
  foldl (λ m x, <[key x := x]> m) ∅ data.

(** [seed_platforms] *)
Definition seed_platforms (s : Store) : Store :=
  match platforms s with
  | [] => mk_store [Platform.mk 1 200; Platform.mk 2 150]
                   (bookings s) (tickets s) (payments s)
  | _ => s
  end.

(** [get_logged_in_user] *)
Definition get_logged_in_user (users : list User.t) (session : Session.t)
    : option User.t :=
  let user_id := Session.user_id session in
  if falsy user_id then None
  else find_by User.userId (default 0 user_id) users.

(** [authenticate_user] *)
Definition authenticate_user (users : list User.t) (email password : string)
    : option User.t :=
  snd <$> list_find (λ u, User.email u = email ∧ User.password u = password) users.

(** [require_admin] *)
Definition require_admin (session : Session.t) : bool := Session.admin session.

Section Auth.
Context `{FormText}.

(** The POST branch of [register]. *)
Definition register (name email password : string) (users : list User.t)
    : reply * list User.t :=
  let name := strip name in
  let email := strip email in
  let password := strip password in
  if bool_decide (name = "" ∨ email = "" ∨ password = "") then
    (mk_reply (Some ("All fields are required.", "danger")) (Redirect "register" None),
     users)
  else if bool_decide (Exists (λ u, User.email u = email) users) then
    (mk_reply (Some ("Email already registered.", "warning")) (Redirect "register" None),
     users)
  else
    let user_id := get_next_id users User.userId in
    (mk_reply (Some ("Registration successful. Please login.", "success"))
              (Redirect "login" None),
     users ++ [User.mk user_id name email password]).

(** The POST branch of [login]. *)
Definition login (email password : string) (users : list User.t)
    (session : Session.t) : reply * Session.t :=
  let email := strip email in
  let password := strip password in
  match authenticate_user users email password with
  | Some user =>
      (mk_reply (Some ("Logged in successfully.", "success")) (Redirect "dashboard" None),
       Session.mk (Some (User.userId user)) (Some (User.name user))
                  false None None None)
  | None =>
      (mk_reply (Some ("Invalid credentials.", "danger")) (Render "login.html"),
       session)
  end.

(** The POST branch of [admin_login]. *)
Definition admin_login (email password : string) (session : Session.t)
    : reply * Session.t :=
  let email := strip email in
  let password := strip password in
  if bool_decide (email = "admin@railway.com" ∧ password = "admin123") then
    (mk_reply (Some ("Admin logged in.", "success")) (Redirect "admin_dashboard" None),
     Session.mk None None true (Some "Station Admin") None None)
  else
    (mk_reply (Some ("Invalid admin credentials.", "danger")) (Render "admin_login.html"),
     session).
End Auth.

(** [logout] *)
Definition logout (session : Session.t) : reply * Session.t :=
  (mk_reply (Some ("Logged out.", "info")) (Redirect "home" None), Session.empty).

(** [admin_logout]: only the two admin keys are popped. *)
Definition admin_logout (session : Session.t) : reply * Session.t :=
  (mk_reply (Some ("Admin logged out.", "info")) (Redirect "home" None),
   Session.mk (Session.user_id session) (Session.user_name session) false None
              (Session.current_booking_id session) (Session.current_amount session)).

(** The requests that change a session's login state. *)
Inductive auth_op :=
| Login (email password : string)
| Logout
| AdminLogin (email password : string)
| AdminLogout.

Section AuthRun.
Context `{FormText}.

Definition auth_step (users : list User.t) (session : Session.t) (o : auth_op)
    : Session.t :=
  match o with
  | Login email password => snd (login email password users session)
  | Logout => snd (logout session)
  | AdminLogin email password => snd (admin_login email password session)
  | AdminLogout => snd (admin_logout session)
  end.

(** A sequence of registration form posts, from an empty user file on. *)
Definition register_all (forms : list (string * string * string))
    (users : list User.t) : list User.t :=
  foldl (λ users form, snd (register form.1.1 form.1.2 form.2 users)) users forms.
End AuthRun.

(** ** Views of the booking flow *)

Definition please_login : reply :=
  mk_reply (Some ("Please login first.", "warning")) (Redirect "login" None).

Section Views.
Context `{DateTime}.

(** The POST branch of the [book] view, with the login gate, the seeding
    of the platform file and the session it leaves.  The two form fields
    are the integers [int(...)] has read.  An [OverflowError] of
    [create_booking] is not caught: the request ends in the server error
    page, after the seeding, with no booking stored and the session as it
    was. *)
Definition book_post (users : list User.t) (session : Session.t)
    (platform_number duration : Z) (now_booking now_issue now_expiry : Z)
    (s : Store) : reply * Session.t * Store :=
  match get_logged_in_user users session with
  | None => (please_login, session, s)
  | Some user =>
      let s := seed_platforms s in
      let '(available, msg) := check_platform_availability s platform_number in
      if negb available then
        (mk_reply (Some (msg, "danger")) (Redirect "book" None), session, s)
      else
        let amount := calculate_amount duration in
        match create_booking (User.userId user) platform_number duration
                             now_booking now_issue now_expiry s with
        | (Some booking, s') =>
            (mk_reply None (Redirect "payment" None),
             Session.mk (Session.user_id session) (Session.user_name session)
                        (Session.admin session) (Session.admin_name session)
                        (Some (Booking.bookingId booking)) (Some amount),
             s')
        | (None, s') => (mk_reply None ServerError, session, s')
        end
  end.

(** The POST branch of the [payment] view. *)
Definition payment_post (users : list User.t) (session : Session.t) (now : Z)
    (s : Store) : reply * Store :=
  match get_logged_in_user users session with
  | None => (please_login, s)
  | Some user =>
      let booking_id := Session.current_booking_id session in
      let amount := Session.current_amount session in
      if falsy booking_id || falsy amount then
        (mk_reply (Some ("No booking to pay for.", "warning")) (Redirect "book" None), s)
      else
        let booking_id := default 0 booking_id in
        let amount := default 0 amount in
        let '((success, payment_record), s') :=
          process_payment booking_id amount now s in
        if success then
          (mk_reply (Some ("Payment successful!", "success"))
                    (Redirect "ticket_details" (Some booking_id)), s')
        else
          (mk_reply (Some ("Payment failed. Please try again.", "danger"))
                    (Redirect "book" None), s')
  end.

(** The [ticket_details] view: the reply, what the template is given (the
    booking, its refreshed ticket, the first payment of the booking) and
    the store afterwards. *)
Definition ticket_details_view (users : list User.t) (session : Session.t)
    (booking_id : Z) (now : Z) (s : Store)
    : reply * option (Booking.t * option Ticket.t * option Payment.t) * Store :=
  match get_logged_in_user users session with
  | None => (please_login, None, s)
  | Some user =>
      let not_found :=
        (mk_reply (Some ("Booking not found.", "danger")) (Redirect "dashboard" None),
         None, s) in
      match find_by Booking.bookingId booking_id (bookings s) with
      | None => not_found
      | Some booking =>
          if bool_decide (Booking.userId booking ≠ User.userId user) then not_found
          else
            let ticket :=
              find_by Ticket.ticketId (Booking.ticketId booking) (tickets s) in
            let '(ticket, s') :=
              match ticket with
              | Some ticket =>
                  let ticket := update_ticket_state now ticket in
                  (Some ticket, save_ticket ticket s)
              | None => (None, s)
              end in
            let payment := find_by Payment.bookingId booking_id (payments s) in
            (mk_reply None (Render "ticket.html"), Some (booking, ticket, payment), s')
      end
  end.
End Views.

(** The [history] view: the user's bookings with the platform and the
    ticket attached to each. *)
Definition history (users : list User.t) (session : Session.t) (s : Store)
    : reply * list (Booking.t * option Platform.t * option Ticket.t) :=
  match get_logged_in_user users session with
  | None => (please_login, [])
  | Some user =>
      let user_bookings :=
        filter (λ b, Booking.userId b = User.userId user) (bookings s) in
      let platform_map := dict_by Platform.platformNumber (platforms s) in
      let ticket_map := dict_by Ticket.ticketId (tickets s) in
      (mk_reply None (Render "history.html"),
       (λ b, (b, platform_map !! Booking.platformNumber b,
                 ticket_map !! Booking.ticketId b)) <$> user_bookings)
  end.

(** ** Admin views *)

Definition admin_required : reply :=
  mk_reply (Some ("Admin login required.", "warning")) (Redirect "admin_login" None).

(** The POST branch of [admin_platforms]. *)
Definition admin_platforms (session : Session.t) (action : string)
    (platform_number capacity : Z) (s : Store) : reply * Store :=
  if negb (require_admin session) then (admin_required, s)
  else
    let platforms := platforms s in
    let page flash platforms' :=
      (mk_reply flash (Render "admin_platforms.html"),
       mk_store platforms' (bookings s) (tickets s) (payments s)) in
    if bool_decide (action = "add") then
      if bool_decide (Exists (λ p, Platform.platformNumber p = platform_number) platforms)
      then page (Some ("Platform already exists.", "warning")) platforms
      else page (Some ("Platform added.", "success"))
                (platforms ++ [Platform.mk platform_number capacity])
    else if bool_decide (action = "update") then
      match list_find (λ p, Platform.platformNumber p = platform_number) platforms with
      | Some (idx, p) =>
          page (Some ("Platform updated.", "success"))
               (<[idx := Platform.mk (Platform.platformNumber p) capacity]> platforms)
      | None => page None platforms
      end
    else page None platforms.

(** What [admin_bookings] attaches to one booking. *)
Record booking_row := mk_row {
  row_booking : Booking.t;
  row_user : option User.t;
  row_platform : option Platform.t;
  row_ticket : option Ticket.t;
  row_payment : option Payment.t
}.

(** The [admin_bookings] view. *)
Definition admin_bookings (users : list User.t) (session : Session.t) (s : Store)
    : reply * list booking_row :=
  if negb (require_admin session) then (admin_required, [])
  else
    let user_map := dict_by User.userId users in
    let platform_map := dict_by Platform.platformNumber (platforms s) in
    let ticket_map := dict_by Ticket.ticketId (tickets s) in
    let payment_map := dict_by Payment.bookingId (payments s) in
    (mk_reply None (Render "admin_bookings.html"),
     (λ b, mk_row b (user_map !! Booking.userId b)
                    (platform_map !! Booking.platformNumber b)
                    (ticket_map !! Booking.ticketId b)
                    (payment_map !! Booking.bookingId b)) <$> bookings s).

(** A form-text instance for examples: [strip] removes the spaces at both
    ends. *)
Fixpoint lstrip_spaces (s : string) : string :=
  match s with
  | String c rest =>
      if bool_decide (Ascii.N_of_ascii c = 32%N) then lstrip_spaces rest else s
  | EmptyString => EmptyString
  end.

Definition strip_spaces (s : string) : string :=
  String.rev (lstrip_spaces (String.rev (lstrip_spaces s))).

Definition space_text : FormText := {| strip := strip_spaces |}.

Definition demo_users : list User.t :=
  @register_all space_text
    [(" Asha ", "asha@example.org", "pw1"); ("Ben", "ben@example.org ", "pw2")] [].

Definition demo_session : Session.t :=
  snd (@login space_text "asha@example.org" " pw1" demo_users Session.empty).

(** The user of [demo_session] books platform 2 for two hours in the store
    where platform 1 is taken. *)
Definition demo_second_booking : reply * Session.t * Store :=
  @book_post micros_clock demo_users demo_session 2 2 0 0 0 demo_paid.

Definition demo_admin : Session.t :=
  snd (@admin_login space_text " admin@railway.com" "admin123" demo_session).

(** ** Sequences of view requests

    The three views that write to the store, each with the session the
    request arrives with.  Sessions are not threaded from one request to
    the next: requests of different users interleave, and a request may
    carry any session. *)

Inductive request :=
| BookPost (session : Session.t)
           (platform_number duration now_booking now_issue now_expiry : Z)
| PaymentPost (session : Session.t) (now : Z)
| TicketView (session : Session.t) (booking_id now : Z).

Section Serve.
Context `{DateTime}.

Definition serve (users : list User.t) (s : Store) (r : request) : Store :=
  match r with
  | BookPost session platform_number duration now_booking now_issue now_expiry =>
      (book_post users session platform_number duration
                 now_booking now_issue now_expiry s).2
  | PaymentPost session now => (payment_post users session now s).2
  | TicketView session booking_id now =>
      (ticket_details_view users session booking_id now s).2
  end.

Definition serve_all (users : list User.t) (requests : list request) (s : Store)
    : Store :=
  foldl (serve users) s requests.
End Serve.

(** ** Further notions used by the properties *)

(** The records of a file carry the identifiers 1, 2, 3, ... in order. *)
Definition numbered {A} (key : A → Z) (data : list A) : Prop :=
  key <$> data = seqZ 1 (Z.of_nat (length data)).

(** A ticket without its status: what a ticket keeps for life. *)
Definition ticket_identity (t : Ticket.t) : Z * string * string * Z :=
  (Ticket.ticketId t, Ticket.issueTime t, Ticket.expiryTime t,
   Ticket.platformNumber t).

(** Whether a ticket occupies one unit of a platform's capacity. *)
Definition occupies (platform_number : Z) (t : Ticket.t) : Z :=
  if decide (Ticket.status t = Active ∧ Ticket.platformNumber t = platform_number)
  then 1 else 0.

(** * Properties *)

(** ** Lookups in the store *)

Section FindBy.
Context {A : Type} (key : A → Z).

Lemma find_by_nil v : find_by key v [] = None.
Proof. reflexivity. Qed.

Lemma find_by_cons v x l :
  find_by key v (x :: l) = if decide (key x = v) then Some x else find_by key v l.
Proof.
  unfold find_by. cbn [list_find].
  destruct (decide (key x = v)); [reflexivity|].
  destruct (list_find _ l) as [[i y]|]; reflexivity.
Qed.

Lemma find_by_Some v l x : find_by key v l = Some x → x ∈ l ∧ key x = v.
Proof.
  induction l as [|y l IH]; [discriminate|].
  rewrite find_by_cons. destruct (decide (key y = v)) as [Hy|Hy].
  - intros [= <-]. split; [left|exact Hy].
  - intros Hx. destruct (IH Hx). split; [by right|done].
Qed.

Lemma find_by_None v l : find_by key v l = None ↔ ∀ x, x ∈ l → key x ≠ v.
Proof.
  induction l as [|y l IH].
  - split; [intros _ x Hx; inversion Hx|reflexivity].
  - rewrite find_by_cons. destruct (decide (key y = v)) as [Hy|Hy].
    + split; [discriminate|]. intros Hall. destruct (Hall y); [left|exact Hy].
    + rewrite IH. split.
      * intros Hall x Hx. inversion Hx; subst; auto.
      * intros Hall x Hx. apply Hall. by right.
Qed.

Lemma find_by_app v l1 l2 :
  find_by key v (l1 ++ l2) =
  match find_by key v l1 with Some x => Some x | None => find_by key v l2 end.
Proof.
  induction l1 as [|y l1 IH]; [reflexivity|].
  rewrite <- app_comm_cons, !find_by_cons.
  destruct (decide (key y = v)); [reflexivity|exact IH].
Qed.

Lemma find_by_NoDup l x :
  NoDup (key <$> l) → x ∈ l → find_by key (key x) l = Some x.
Proof.
  induction l as [|y l IH]; intros Hnd Hx; [inversion Hx|].
  rewrite fmap_cons in Hnd. apply NoDup_cons in Hnd as [Hy Hnd].
  rewrite find_by_cons. apply elem_of_cons in Hx as [->|Hx].
  - by rewrite decide_True.
  - rewrite decide_False; [by apply IH|].
    intros Heq. apply Hy. rewrite Heq. by apply list_elem_of_fmap_2.
Qed.

(** ** Identifier allocation *)

Lemma foldl_max_ge (m : Z) (l : list Z) : m ≤ foldl Z.max m l.
Proof.
  revert m. induction l as [|y l IH]; intros m; cbn; [lia|].
  specialize (IH (Z.max m y)). lia.
Qed.

Lemma foldl_max_elem (m : Z) (l : list Z) y : y ∈ l → y ≤ foldl Z.max m l.
Proof.
  revert m. induction l as [|z l IH]; intros m Hy; [inversion Hy|].
  cbn. apply elem_of_cons in Hy as [->|Hy].
  - pose proof (foldl_max_ge (Z.max m z) l). lia.
  - by apply IH.
Qed.

Lemma get_next_id_fresh (data : list A) x :
  x ∈ data → key x < get_next_id data key.
Proof.
  destruct data as [|y rest]; intros Hx; [inversion Hx|].
  cbn. apply elem_of_cons in Hx as [->|Hx].
  - pose proof (foldl_max_ge (key y) (key <$> rest)). lia.
  - pose proof (foldl_max_elem (key y) (key <$> rest) (key x)
                  (list_elem_of_fmap_2 key _ _ Hx)). lia.
Qed.

Lemma get_next_id_positive (data : list A) :
  Forall (λ x, 0 < key x) data → 0 < get_next_id data key.
Proof.
  destruct data as [|y rest]; intros Hall; [reflexivity|].
  apply Forall_cons in Hall as [Hy _].
  pose proof (get_next_id_fresh (y :: rest) y ltac:(left)). lia.
Qed.

Lemma get_next_id_not_stored (data : list A) :
  get_next_id data key ∉ (key <$> data).
Proof.
  intros Hin. apply list_elem_of_fmap in Hin as (x & Heq & Hx).
  pose proof (get_next_id_fresh data x Hx). lia.
Qed.
End FindBy.

(** ** Fare calculation *)

(** C8: the fare is the fixed rate of 10 per hour times the duration, for
    every integer duration, positive or not; the function reads and writes
    nothing else, its result is determined by its argument alone. *)
Theorem calculate_amount_flat_rate (duration_hours : Z) :
  calculate_amount duration_hours = 10 * duration_hours.
Proof. unfold calculate_amount. reflexivity. Qed.

Lemma calculate_amount_linear (d : Z) :
  calculate_amount (2 * d) = 2 * calculate_amount d.
Proof. unfold calculate_amount. lia. Qed.

Lemma calculate_amount_nonpositive (d : Z) :
  d ≤ 0 → calculate_amount d ≤ 0.
Proof. unfold calculate_amount. lia. Qed.

(** ** Ticket lifecycle *)

Section Lifecycle.
Context `{DateTime}.

Lemma update_ticket_state_not_active now ticket :
  Ticket.status ticket ≠ Active → update_ticket_state now ticket = ticket.
Proof.
  intros Hst. unfold update_ticket_state. by rewrite bool_decide_eq_false_2.
Qed.

Lemma update_ticket_state_active now ticket :
  Ticket.status ticket = Active →
  update_ticket_state now ticket =
  match fromisoformat (Ticket.expiryTime ticket) ≫= now_gt now with
  | Some true => Ticket.set_status Expired ticket
  | _ => ticket
  end.
Proof.
  intros Hst. unfold update_ticket_state. rewrite bool_decide_eq_true_2 by done.
  destruct (fromisoformat _) as [expiry|]; cbn; [|reflexivity].
  by destruct (now_gt now expiry) as [[]|].
Qed.

Lemma update_ticket_state_status now ticket :
  Ticket.status (update_ticket_state now ticket) = Ticket.status ticket
  ∨ (Ticket.status ticket = Active
     ∧ update_ticket_state now ticket = Ticket.set_status Expired ticket).
Proof.
  destruct (decide (Ticket.status ticket = Active)) as [Hst|Hst].
  - rewrite update_ticket_state_active by done.
    destruct (_ ≫= _) as [[]|]; auto.
  - left. by rewrite update_ticket_state_not_active.
Qed.

Lemma update_ticket_state_keeps_identity now ticket :
  Ticket.ticketId (update_ticket_state now ticket) = Ticket.ticketId ticket
  ∧ Ticket.platformNumber (update_ticket_state now ticket)
    = Ticket.platformNumber ticket.
Proof.
  destruct (update_ticket_state_status now ticket) as [Hst|[_ ->]]; [|done].
  unfold update_ticket_state in *.
  repeat (case_match; try done).
Qed.
End Lifecycle.

Section Refresh.
Context `{DateTime}.

(** C6: a refresh turns a ticket to [Expired] exactly when it is [Active]
    and the current time is strictly later than its expiry time (for a
    ticket whose expiry time is the naive timestamp the booking workflow
    writes); a ticket in any other status, so one that is pending, cancelled
    or already expired, is returned as it is whatever the time. *)
Theorem update_ticket_state_expires_exactly (now : Z) (ticket : Ticket.t) :
  (Ticket.status ticket ≠ Active → update_ticket_state now ticket = ticket)
  ∧ (∀ expiry,
       fromisoformat (Ticket.expiryTime ticket) = Some expiry →
       tzaware expiry = false →
       update_ticket_state now ticket =
       if bool_decide (Ticket.status ticket = Active ∧ instant expiry < now)
       then Ticket.set_status Expired ticket else ticket).
Proof.
  split; [apply update_ticket_state_not_active|].
  intros expiry Hparse Hnaive.
  destruct (decide (Ticket.status ticket = Active)) as [Hst|Hst].
  - rewrite update_ticket_state_active, Hparse by done. cbn.
    unfold now_gt. rewrite Hnaive.
    destruct (Z.ltb_spec (instant expiry) now).
    + by rewrite bool_decide_eq_true_2.
    + rewrite bool_decide_eq_false_2; [done|]. intros [_ ?]. lia.
  - rewrite update_ticket_state_not_active by done.
    rewrite bool_decide_eq_false_2; [done|]. by intros [? _].
Qed.

(** C7: refreshing twice at the same observation time gives the same ticket
    as refreshing once. *)
Theorem update_ticket_state_idempotent (now : Z) (ticket : Ticket.t) :
  update_ticket_state now (update_ticket_state now ticket)
  = update_ticket_state now ticket.
Proof.
  destruct (update_ticket_state_status now ticket) as [Hst|[Hst Hexp]].
  - destruct (decide (Ticket.status ticket = Active)) as [Hact|Hact].
    + rewrite (update_ticket_state_active now ticket Hact) in *.
      destruct (_ ≫= _) as [[]|] eqn:Hcmp.
      * cbn in Hst. rewrite Hact in Hst. discriminate Hst.
      * by rewrite update_ticket_state_active, Hcmp.
      * by rewrite update_ticket_state_active, Hcmp.
    + by rewrite !(update_ticket_state_not_active now ticket Hact).
  - rewrite Hexp. by apply update_ticket_state_not_active.
Qed.

(** C9: an active ticket whose expiry time does not parse is returned
    unchanged; the model of the function is total, the failed parse ends in
    the [pass] branch. *)
Theorem update_ticket_state_ignores_parse_failure (now : Z) (ticket : Ticket.t) :
  Ticket.status ticket = Active →
  fromisoformat (Ticket.expiryTime ticket) = None →
  update_ticket_state now ticket = ticket.
Proof.
  intros Hst Hparse. by rewrite update_ticket_state_active, Hparse.
Qed.

(** An expiry time with a UTC offset is swallowed the same way: the
    comparison with the naive clock raises inside the [try] block. *)
Lemma update_ticket_state_ignores_aware_expiry now ticket expiry :
  fromisoformat (Ticket.expiryTime ticket) = Some expiry →
  tzaware expiry = true →
  update_ticket_state now ticket = ticket.
Proof.
  intros Hparse Haware. unfold update_ticket_state.
  rewrite Hparse. unfold now_gt. rewrite Haware. by case_bool_decide.
Qed.
End Refresh.

Lemma update_ticket_state_expires_exactly_witness :
  @update_ticket_state micros_clock 7200000001 (sample_ticket Active "7200000000")
  = sample_ticket Expired "7200000000"
  ∧ @update_ticket_state micros_clock 7200000000 (sample_ticket Active "7200000000")
    = sample_ticket Active "7200000000"
  ∧ @update_ticket_state micros_clock 7200000001 (sample_ticket PendingPayment "7200000000")
    = sample_ticket PendingPayment "7200000000".
Proof.
  pose proof (@update_ticket_state_expires_exactly micros_clock) as Hspec.
  split; [|split].
  - destruct (Hspec 7200000001 (sample_ticket Active "7200000000")) as [_ Hact].
    exact (Hact (mk_datetime 7200000000 false) eq_refl eq_refl).
  - destruct (Hspec 7200000000 (sample_ticket Active "7200000000")) as [_ Hact].
    exact (Hact (mk_datetime 7200000000 false) eq_refl eq_refl).
  - destruct (Hspec 7200000001 (sample_ticket PendingPayment "7200000000")) as [Hno _].
    apply Hno. discriminate.
Defined.

Lemma update_ticket_state_ignores_parse_failure_witness :
  @update_ticket_state micros_clock 7200000001 (sample_ticket Active "next tuesday")
  = sample_ticket Active "next tuesday".
Proof.
  apply (@update_ticket_state_ignores_parse_failure micros_clock);
    vm_compute; reflexivity.
Defined.

(** ** Saving a ticket *)

Section Insert.
Context {A : Type} (key : A → Z).

Lemma find_by_insert_first (l : list A) idx old new :
  l !! idx = Some old →
  (∀ j y, l !! j = Some y → (j < idx)%nat → key y ≠ key new) →
  find_by key (key new) (<[idx:=new]> l) = Some new.
Proof.
  revert idx. induction l as [|x l IH]; intros [|idx] Hidx Hbefore;
    try discriminate; cbn [insert list_insert]; rewrite find_by_cons.
  - by rewrite decide_True.
  - rewrite decide_False.
    + apply IH; [exact Hidx|]. intros j y Hj Hlt.
      apply (Hbefore (S j) y Hj). lia.
    + apply (Hbefore 0%nat x eq_refl). lia.
Qed.

Lemma find_by_insert_other (l : list A) idx old new v :
  l !! idx = Some old → key old = key new → v ≠ key new →
  find_by key v (<[idx:=new]> l) = find_by key v l.
Proof.
  revert idx. induction l as [|x l IH]; intros [|idx] Hidx Hkey Hv;
    try discriminate; cbn [insert list_insert]; rewrite !find_by_cons.
  - injection Hidx as ->. rewrite !decide_False; congruence.
  - destruct (decide (key x = v)); [reflexivity|]. by eapply IH.
Qed.

Lemma fmap_insert_same_key (l : list A) idx old new :
  l !! idx = Some old → key old = key new →
  key <$> <[idx:=new]> l = key <$> l.
Proof.
  intros Hidx Hkey. rewrite list_fmap_insert. apply list_insert_id.
  by rewrite list_lookup_fmap, Hidx, <- Hkey.
Qed.
End Insert.

Lemma save_ticket_found ticket s old :
  find_by Ticket.ticketId (Ticket.ticketId ticket) (tickets s) = Some old →
  ∃ idx,
    tickets s !! idx = Some old
    ∧ Ticket.ticketId old = Ticket.ticketId ticket
    ∧ (∀ j y, tickets s !! j = Some y → (j < idx)%nat →
              Ticket.ticketId y ≠ Ticket.ticketId ticket)
    ∧ save_ticket ticket s
      = mk_store (platforms s) (bookings s) (<[idx:=ticket]> (tickets s)) (payments s).
Proof.
  unfold find_by, save_ticket.
  destruct (list_find _ (tickets s)) as [[idx found]|] eqn:Hfind; [|discriminate].
  intros [= ->]. apply list_find_Some in Hfind as (Hidx & Hkey & Hbefore).
  exists idx. repeat split; auto.
Qed.

Lemma save_ticket_missing ticket s :
  find_by Ticket.ticketId (Ticket.ticketId ticket) (tickets s) = None →
  save_ticket ticket s = s.
Proof.
  unfold find_by, save_ticket.
  destruct (list_find _ (tickets s)) as [[idx found]|]; [discriminate|].
  by destruct s.
Qed.

Lemma set_status_ticketId st ticket :
  Ticket.ticketId (Ticket.set_status st ticket) = Ticket.ticketId ticket.
Proof. reflexivity. Qed.

(** ** Payment settlement *)

Section Payments.
Context `{DateTime}.

(** The payment record [process_payment] builds and appends. *)
Lemma process_payment_with_payment success booking_id amount now s :
  let '((ok, payment), s') := process_payment_with success booking_id amount now s in
  ok = success
  ∧ payment = Payment.mk (get_next_id (payments s) Payment.paymentId) booking_id
                         amount (if success then "SUCCESS" else "FAILED")
                         (isoformat now)
  ∧ payments s' = payments s ++ [payment]
  ∧ bookings s' = bookings s
  ∧ platforms s' = platforms s.
Proof.
  unfold process_payment_with. cbn beta zeta.
  repeat split; repeat case_match; try reflexivity;
    unfold save_ticket; by repeat case_match.
Qed.

Lemma process_payment_with_tickets success booking_id amount now s booking ticket :
  find_by Booking.bookingId booking_id (bookings s) = Some booking →
  linked_ticket s booking = Some ticket →
  let s' := snd (process_payment_with success booking_id amount now s) in
  let ticket' := Ticket.set_status (if success then Active else Cancelled) ticket in
  ∃ idx, tickets s !! idx = Some ticket
         ∧ (∀ j y, tickets s !! j = Some y → (j < idx)%nat →
                   Ticket.ticketId y ≠ Ticket.ticketId ticket)
         ∧ tickets s' = <[idx:=ticket']> (tickets s).
Proof.
  unfold linked_ticket. intros Hb Ht. unfold process_payment_with.
  cbn beta zeta. rewrite Hb, Ht. cbn [snd].
  set (s1 := mk_store _ _ _ _).
  set (ticket' := if success then _ else _).
  assert (ticket' = Ticket.set_status (if success then Active else Cancelled) ticket)
    as -> by (by destruct success).
  apply find_by_Some in Ht as Hid. destruct Hid as [_ Hid].
  destruct (save_ticket_found
              (Ticket.set_status (if success then Active else Cancelled) ticket)
              s1 ticket) as (idx & Hidx & _ & Hbefore & ->).
  { rewrite set_status_ticketId, Hid. exact Ht. }
  exists idx. repeat split; auto.
Qed.

Lemma process_payment_with_absent success booking_id amount now s :
  find_by Booking.bookingId booking_id (bookings s) = None →
  tickets (snd (process_payment_with success booking_id amount now s)) = tickets s.
Proof.
  intros Hb. unfold process_payment_with. cbn beta zeta. by rewrite Hb.
Qed.
End Payments.

Section Settle.
Context `{DateTime}.

(** C3: for a booking that is in the store, a settlement appends exactly
    one payment record with the given booking identifier and amount and the
    status [SUCCESS] or [FAILED], and it overwrites the status of the
    booking's linked ticket with [Active] on success and [Cancelled] on
    failure whatever that status was before; no other ticket changes.  The
    source always takes the success branch. *)
Theorem process_payment_settles_unconditionally
    (success : bool) (booking_id amount now : Z) (s : Store) (booking : Booking.t) :
  find_by Booking.bookingId booking_id (bookings s) = Some booking →
  process_payment booking_id amount now s
  = process_payment_with true booking_id amount now s
  ∧ let '((ok, payment), s') := process_payment_with success booking_id amount now s in
    ok = success
    ∧ payments s' = payments s ++ [payment]
    ∧ Payment.bookingId payment = booking_id
    ∧ Payment.amount payment = amount
    ∧ Payment.paymentStatus payment = (if success then "SUCCESS" else "FAILED")
    ∧ ∀ ticket, linked_ticket s booking = Some ticket →
        linked_ticket s' booking
        = Some (Ticket.set_status (if success then Active else Cancelled) ticket)
        ∧ length (tickets s') = length (tickets s)
        ∧ ∀ id, id ≠ Ticket.ticketId ticket →
            find_by Ticket.ticketId id (tickets s')
            = find_by Ticket.ticketId id (tickets s).
Proof.
  intros Hb. split; [reflexivity|].
  pose proof (process_payment_with_payment success booking_id amount now s) as Hpay.
  pose proof (process_payment_with_tickets success booking_id amount now s booking) as Htk.
  destruct (process_payment_with success booking_id amount now s)
    as [[ok payment] s'].
  destruct Hpay as (-> & Hpayment & Hpayments & _ & _).
  split; [reflexivity|]. split; [exact Hpayments|].
  rewrite Hpayment. cbn [Payment.bookingId Payment.amount Payment.paymentStatus].
  do 3 (split; [reflexivity|]).
  intros ticket Hlinked.
  destruct (Htk ticket Hb Hlinked) as (idx & Hidx & Hbefore & Htickets).
  cbn [snd] in Htickets. unfold linked_ticket in *. rewrite Htickets.
  apply find_by_Some in Hlinked as [_ Hid].
  split; [|split].
  - rewrite <- Hid.
    rewrite <- (set_status_ticketId (if success then Active else Cancelled) ticket).
    eapply find_by_insert_first; [exact Hidx|].
    intros j y Hj Hlt. rewrite set_status_ticketId. eauto.
  - apply length_insert.
  - intros id Hne.
    eapply find_by_insert_other; [exact Hidx|reflexivity|].
    by rewrite set_status_ticketId.
Qed.

(** C10: for a booking identifier that no stored booking carries, a
    settlement still appends a payment record with status [SUCCESS] and
    reports success, and the ticket file is left as it was. *)
Theorem process_payment_unknown_booking (booking_id amount now : Z) (s : Store) :
  (∀ b, b ∈ bookings s → Booking.bookingId b ≠ booking_id) →
  let '((ok, payment), s') := process_payment booking_id amount now s in
  ok = true
  ∧ payments s' = payments s ++ [payment]
  ∧ Payment.bookingId payment = booking_id
  ∧ Payment.amount payment = amount
  ∧ Payment.paymentStatus payment = "SUCCESS"
  ∧ tickets s' = tickets s.
Proof.
  intros Habsent. apply find_by_None in Habsent.
  pose proof (process_payment_with_payment true booking_id amount now s) as Hpay.
  pose proof (process_payment_with_absent true booking_id amount now s Habsent) as Htk.
  unfold process_payment. cbn zeta.
  destruct (process_payment_with true booking_id amount now s)
    as [[ok payment] s'].
  destruct Hpay as (-> & -> & Hpayments & _ & _).
  repeat split; done.
Qed.
End Settle.

Lemma process_payment_settles_unconditionally_witness :
  linked_ticket demo_expired (Booking.mk 1 7 1 "0" 2 1)
  = Some (sample_ticket Expired "7200000000")
  ∧ linked_ticket
      (snd (@process_payment_with micros_clock true 1 20 7200000002 demo_expired))
      (Booking.mk 1 7 1 "0" 2 1)
    = Some (sample_ticket Active "7200000000").
Proof.
  split; [reflexivity|].
  destruct (@process_payment_settles_unconditionally micros_clock true 1 20
              7200000002 demo_expired (Booking.mk 1 7 1 "0" 2 1) eq_refl)
    as [_ Hsettle].
  destruct (@process_payment_with micros_clock true 1 20 7200000002 demo_expired)
    as [[ok payment] s'].
  destruct Hsettle as (_ & _ & _ & _ & _ & Hticket).
  destruct (Hticket (sample_ticket Expired "7200000000") eq_refl) as [Hlinked _].
  exact Hlinked.
Defined.

Lemma process_payment_unknown_booking_witness :
  let '((ok, payment), s') := @process_payment micros_clock 99 20 5 demo_booked in
  ok = true
  ∧ payments s' = payments demo_booked ++ [payment]
  ∧ Payment.bookingId payment = 99
  ∧ Payment.amount payment = 20
  ∧ Payment.paymentStatus payment = "SUCCESS"
  ∧ tickets s' = tickets demo_booked.
Proof.
  apply (@process_payment_unknown_booking micros_clock 99 20 5 demo_booked).
  intros b Hb. vm_compute in Hb.
  apply list_elem_of_singleton in Hb as ->. discriminate.
Defined.

(** ** Booking creation *)

Lemma datetime_add_hours_Some (now h expiry : Z) :
  datetime_add_hours now h = Some expiry
  ↔ expiry = now + h * 3600000000
    ∧ timedelta_min ≤ h * 3600000000 ≤ timedelta_max
    ∧ datetime_min ≤ now + h * 3600000000 ≤ datetime_max.
Proof.
  unfold datetime_add_hours, timedelta_hours, datetime_add. cbn zeta.
  case_bool_decide as Hdelta; cbn; [case_bool_decide as Hsum|]; split.
  - intros [= <-]. done.
  - by intros (-> & _ & _).
  - discriminate.
  - intros (_ & _ & ?). done.
  - discriminate.
  - intros (_ & ? & _). done.
Qed.

Lemma datetime_add_hours_None (now h : Z) :
  datetime_add_hours now h = None
  ↔ ¬ (timedelta_min ≤ h * 3600000000 ≤ timedelta_max
       ∧ datetime_min ≤ now + h * 3600000000 ≤ datetime_max).
Proof.
  destruct (datetime_add_hours now h) as [expiry|] eqn:Hadd.
  - apply datetime_add_hours_Some in Hadd as (_ & ? & ?).
    split; [discriminate|]. intros Hno. destruct Hno. done.
  - split; [|done]. intros _ [Hdelta Hsum].
    assert (datetime_add_hours now h = Some (now + h * 3600000000)) as Hsome
      by by apply datetime_add_hours_Some.
    congruence.
Qed.

Section Create.
Context `{DateTime}.

Lemma create_booking_raises user_id platform_number selected_duration
    now_booking now_issue now_expiry (s : Store) :
  datetime_add_hours now_expiry selected_duration = None →
  create_booking user_id platform_number selected_duration
                 now_booking now_issue now_expiry s = (None, s).
Proof. intros Hadd. unfold create_booking. by rewrite Hadd. Qed.

Lemma create_booking_returns user_id platform_number selected_duration
    now_booking now_issue now_expiry (s : Store) (expiry : Z) :
  datetime_add_hours now_expiry selected_duration = Some expiry →
  create_booking user_id platform_number selected_duration
                 now_booking now_issue now_expiry s
  = (Some (Booking.mk (get_next_id (bookings s) Booking.bookingId) user_id
                      platform_number (isoformat now_booking) selected_duration
                      (get_next_id (tickets s) Ticket.ticketId)),
     mk_store (platforms s)
       (bookings s
        ++ [Booking.mk (get_next_id (bookings s) Booking.bookingId) user_id
                       platform_number (isoformat now_booking) selected_duration
                       (get_next_id (tickets s) Ticket.ticketId)])
       (tickets s
        ++ [Ticket.mk (get_next_id (tickets s) Ticket.ticketId)
                      (isoformat now_issue) (isoformat expiry) PendingPayment
                      platform_number])
       (payments s)).
Proof. intros Hadd. unfold create_booking. by rewrite Hadd. Qed.

(** What a booking request leaves in the store: nothing, or one booking
    and one pending ticket with fresh identifiers. *)
Lemma create_booking_shape user_id platform_number selected_duration
    now_booking now_issue now_expiry (s : Store) :
  let s' := snd (create_booking user_id platform_number selected_duration
                                now_booking now_issue now_expiry s) in
  s' = s
  ∨ ∃ booking ticket,
      s' = mk_store (platforms s) (bookings s ++ [booking]) (tickets s ++ [ticket])
                    (payments s)
      ∧ Booking.bookingId booking = get_next_id (bookings s) Booking.bookingId
      ∧ Ticket.ticketId ticket = get_next_id (tickets s) Ticket.ticketId
      ∧ Booking.ticketId booking = Ticket.ticketId ticket
      ∧ Booking.platformNumber booking = Ticket.platformNumber ticket
      ∧ Ticket.status ticket = PendingPayment.
Proof.
  destruct (datetime_add_hours now_expiry selected_duration) as [expiry|] eqn:Hadd.
  - right. rewrite (create_booking_returns _ _ _ _ _ _ _ expiry Hadd).
    eexists _, _. repeat split.
  - left. by rewrite create_booking_raises.
Qed.

(** C5, as the code has it: when the third clock reading plus the duration
    is a datetime the library can represent, a booking appends exactly one
    ticket in state [Pending Payment] and exactly one booking that carries
    the ticket's identifier, both identifiers strictly above every stored
    identifier of their kind, and returns that booking.  The issue time is
    the second clock reading; the expiry time is the third clock reading
    plus the duration, so it is the issue time plus the duration when the
    two readings coincide.  For any other duration the call raises
    [OverflowError] and the store is left as it was. *)
Theorem create_booking_persists
    (user_id platform_number selected_duration : Z)
    (now_booking now_issue now_expiry : Z) (s : Store) :
  let delta := selected_duration * 3600000000 in
  (timedelta_min ≤ delta ≤ timedelta_max →
   datetime_min ≤ now_expiry + delta ≤ datetime_max →
   ∃ booking ticket s',
     create_booking user_id platform_number selected_duration
                    now_booking now_issue now_expiry s = (Some booking, s')
     ∧ tickets s' = tickets s ++ [ticket]
     ∧ bookings s' = bookings s ++ [booking]
     ∧ platforms s' = platforms s
     ∧ payments s' = payments s
     ∧ Ticket.status ticket = PendingPayment
     ∧ Ticket.platformNumber ticket = platform_number
     ∧ Ticket.issueTime ticket = isoformat now_issue
     ∧ Ticket.expiryTime ticket = isoformat (now_expiry + delta)
     ∧ (now_expiry = now_issue →
        Ticket.expiryTime ticket = isoformat (now_issue + delta))
     ∧ Booking.ticketId booking = Ticket.ticketId ticket
     ∧ Booking.userId booking = user_id
     ∧ Booking.platformNumber booking = platform_number
     ∧ Booking.selectedDuration booking = selected_duration
     ∧ Booking.bookingTime booking = isoformat now_booking
     ∧ (∀ t, t ∈ tickets s → Ticket.ticketId t < Ticket.ticketId ticket)
     ∧ (∀ b, b ∈ bookings s → Booking.bookingId b < Booking.bookingId booking))
  ∧ (¬ (timedelta_min ≤ delta ≤ timedelta_max
        ∧ datetime_min ≤ now_expiry + delta ≤ datetime_max) →
     create_booking user_id platform_number selected_duration
                    now_booking now_issue now_expiry s = (None, s)).
Proof.
  cbn zeta. split.
  - intros Hdelta Hsum.
    assert (datetime_add_hours now_expiry selected_duration
            = Some (now_expiry + selected_duration * 3600000000)) as Hadd
      by by apply datetime_add_hours_Some.
    rewrite (create_booking_returns _ _ _ _ _ _ _ _ Hadd).
    eexists _, _, _. split; [reflexivity|]. cbn.
    repeat split; try reflexivity.
    + by intros ->.
    + intros t Ht. by apply get_next_id_fresh.
    + intros b Hb. by apply get_next_id_fresh.
  - intros Hout. by apply create_booking_raises, datetime_add_hours_None.
Qed.
End Create.

(** C5, as stated, fails when the clock advances between the reading of the
    issue time and the reading the expiry time is computed from: with
    readings 0 and 1 and a duration of two hours the ticket is issued at 0
    and expires at 7200000001, not at 7200000000. *)
Lemma expiry_is_issue_plus_duration_counterexample :
  ¬ @expiry_is_issue_plus_duration micros_clock.
Proof.
  intros Hstated.
  destruct (Hstated 7 1 2 0 0 1 (init demo_platforms))
    as (ticket & issue & expiry & Htickets & Hissue & Hexpiry & Hsum).
  vm_compute in Htickets. injection Htickets as <-.
  vm_compute in Hissue. vm_compute in Hexpiry.
  injection Hissue as <-. injection Hexpiry as <-.
  vm_compute in Hsum. discriminate Hsum.
Qed.

(** It fails as well for a duration that takes the expiry time past the
    year 9999: nothing is stored then. *)
Lemma create_booking_overflow :
  @create_booking micros_clock 7 1 100000000 0 0 0 (init demo_platforms)
  = (None, init demo_platforms).
Proof. reflexivity. Qed.

Lemma create_booking_persists_witness :
  (∃ booking ticket s',
     @create_booking micros_clock 7 1 2 0 0 0 (init demo_platforms) = (Some booking, s')
     ∧ tickets s' = [ticket]
     ∧ bookings s' = [booking]
     ∧ Ticket.status ticket = PendingPayment
     ∧ Ticket.issueTime ticket = "0"
     ∧ Ticket.expiryTime ticket = "7200000000"
     ∧ Booking.ticketId booking = Ticket.ticketId ticket)
  ∧ @create_booking micros_clock 7 1 100000000 0 0 0 (init demo_platforms)
    = (None, init demo_platforms).
Proof.
  split.
  - destruct (@create_booking_persists micros_clock 7 1 2 0 0 0 (init demo_platforms))
      as [Hin _].
    destruct Hin as (booking & ticket & s' & Hrun & Htickets & Hbookings & _ & _
                     & Hstatus & _ & Hissue & _ & Hexpiry & Hlink & _);
      [vm_compute; split; discriminate..|].
    exists booking, ticket, s'. repeat split; try assumption.
    exact (Hexpiry eq_refl).
  - destruct (@create_booking_persists micros_clock 7 1 100000000 0 0 0
                (init demo_platforms)) as [_ Hout].
    apply Hout. vm_compute. intros [_ [_ Hmax]]. by apply Hmax.
Defined.

(** ** Availability *)

Lemma counts_as_active_linked (s : Store) (platform_number : Z) (b : Booking.t) :
  Booking.ticketId b ≠ 0 →
  counts_as_active (tickets s) platform_number b = true
  ↔ Booking.platformNumber b = platform_number
    ∧ Ticket.status <$> linked_ticket s b = Some Active.
Proof.
  intros Hid. unfold counts_as_active, linked_ticket. cbn zeta.
  rewrite (bool_decide_eq_true_2 _ Hid).
  case_bool_decide as Hpn; [|by split; [|intros []]].
  destruct (find_by _ _ _) as [t|]; cbn.
  - rewrite bool_decide_eq_true. split; [intros ->; done|]. by intros [_ [= ->]].
  - split; [done|]. by intros [_ ?].
Qed.

Lemma counts_as_active_needs_ticket_id (ts : list Ticket.t) pn (b : Booking.t) :
  Booking.ticketId b = 0 → counts_as_active ts pn b = false.
Proof.
  intros Hid. unfold counts_as_active. cbn zeta.
  case_bool_decide; [|reflexivity]. by rewrite bool_decide_eq_false_2 by tauto.
Qed.

(** The counting loop, started from any value of the counter. *)
Lemma active_count_loop (s : Store) (platform_number : Z) (bs : list Booking.t) (n : Z) :
  Forall (λ b, Booking.ticketId b ≠ 0) bs →
  foldl (λ n b, if counts_as_active (tickets s) platform_number b then n + 1 else n)
        n bs
  = n + Z.of_nat (length (filter
          (λ b, Booking.platformNumber b = platform_number
                ∧ Ticket.status <$> linked_ticket s b = Some Active) bs)).
Proof.
  revert n. induction bs as [|b bs IH]; intros n Hids; cbn [foldl].
  - cbn. lia.
  - apply Forall_cons in Hids as [Hid Hids]. rewrite IH by exact Hids.
    pose proof (counts_as_active_linked s platform_number b Hid) as Hb.
    rewrite filter_cons. destruct (decide _) as [Hyes|Hno].
    + apply Hb in Hyes. rewrite Hyes. cbn [length]. lia.
    + destruct (counts_as_active _ _ b); [|reflexivity].
      exfalso. apply Hno, Hb. reflexivity.
Qed.

Lemma active_count_active_bookings (s : Store) (platform_number : Z) :
  Forall (λ b, Booking.ticketId b ≠ 0) (bookings s) →
  active_count (bookings s) (tickets s) platform_number
  = active_bookings s platform_number.
Proof.
  intros Hids. unfold active_count, active_bookings.
  rewrite active_count_loop by exact Hids. lia.
Qed.

Lemma check_platform_availability_cases (s : Store) (platform_number : Z) :
  match find_by Platform.platformNumber platform_number (platforms s) with
  | None =>
      check_platform_availability s platform_number = (false, "Platform not found.")
  | Some platform =>
      (Platform.capacity platform
         ≤ active_count (bookings s) (tickets s) platform_number
       ∧ check_platform_availability s platform_number
         = (false, "Platform " +:+ pretty platform_number +:+ " is full."))
      ∨ (active_count (bookings s) (tickets s) platform_number
           < Platform.capacity platform
         ∧ check_platform_availability s platform_number = (true, "Available"))
  end.
Proof.
  unfold check_platform_availability.
  destruct (find_by _ _ _) as [platform|]; [|reflexivity].
  cbn zeta. case_bool_decide; [left|right]; split; try reflexivity; lia.
Qed.

(** C4: the check refuses an unknown platform with the message
    [Platform not found.]; for a known platform it refuses with the message
    [Platform N is full.] exactly when the bookings of that platform whose
    linked ticket is [Active] number at least the capacity, and allows the
    booking otherwise.  Stated for stores whose bookings carry the non-zero
    ticket identifiers that the booking workflow allocates. *)
Theorem check_platform_availability_spec (s : Store) (platform_number : Z) :
  Forall (λ b, Booking.ticketId b ≠ 0) (bookings s) →
  ((∀ p, p ∈ platforms s → Platform.platformNumber p ≠ platform_number) →
   check_platform_availability s platform_number = (false, "Platform not found."))
  ∧ (∀ platform,
       find_by Platform.platformNumber platform_number (platforms s) = Some platform →
       (Platform.capacity platform ≤ active_bookings s platform_number →
        check_platform_availability s platform_number
        = (false, "Platform " +:+ pretty platform_number +:+ " is full."))
       ∧ (active_bookings s platform_number < Platform.capacity platform →
          check_platform_availability s platform_number = (true, "Available"))).
Proof.
  intros Hids.
  pose proof (check_platform_availability_cases s platform_number) as Hcases.
  rewrite (active_count_active_bookings s platform_number Hids) in Hcases.
  split.
  - intros Hnone. apply find_by_None in Hnone. by rewrite Hnone in Hcases.
  - intros platform Hfound. rewrite Hfound in Hcases.
    split; intros Hcmp; destruct Hcases as [[Hc ->]|[Hc ->]];
      first [reflexivity | lia].
Qed.

Lemma check_platform_availability_spec_witness :
  check_platform_availability demo_paid 3 = (false, "Platform not found.")
  ∧ check_platform_availability demo_paid 1 = (false, "Platform 1 is full.")
  ∧ check_platform_availability demo_paid 2 = (true, "Available")
  ∧ check_platform_availability demo_booked 1 = (true, "Available").
Proof.
  assert (∀ s, bookings s = [Booking.mk 1 7 1 "0" 2 1] →
               Forall (λ b, Booking.ticketId b ≠ 0) (bookings s)) as Hids.
  { intros s ->. by repeat constructor. }
  destruct (check_platform_availability_spec demo_paid 3 (Hids demo_paid eq_refl)) as [Hnone _].
  destruct (check_platform_availability_spec demo_paid 1 (Hids demo_paid eq_refl)) as [_ Hone].
  destruct (check_platform_availability_spec demo_paid 2 (Hids demo_paid eq_refl)) as [_ Htwo].
  destruct (check_platform_availability_spec demo_booked 1 (Hids demo_booked eq_refl)) as [_ Hpending].
  split; [|split; [|split]].
  - apply Hnone. intros p Hp. vm_compute in Hp.
    apply elem_of_cons in Hp as [->|Hp]; [discriminate|].
    apply list_elem_of_singleton in Hp as ->. discriminate.
  - apply (Hone (Platform.mk 1 1) eq_refl). vm_compute. discriminate.
  - apply (Htwo (Platform.mk 2 1) eq_refl). reflexivity.
  - apply (Hpending (Platform.mk 1 1) eq_refl). reflexivity.
Defined.

(** ** The store stays consistent *)

Lemma consistent_init (plats : list Platform.t) : consistent (init plats).
Proof. split; cbn; constructor. Qed.

Lemma consistent_payments (s : Store) (ps : list Payment.t) :
  consistent s → consistent (mk_store (platforms s) (bookings s) (tickets s) ps).
Proof. intros [Hnd Hpos Hlink]. by split. Qed.

Lemma consistent_save_ticket (ticket old : Ticket.t) (s : Store) :
  consistent s →
  find_by Ticket.ticketId (Ticket.ticketId ticket) (tickets s) = Some old →
  Ticket.platformNumber ticket = Ticket.platformNumber old →
  consistent (save_ticket ticket s).
Proof.
  intros [Hnd Hpos Hlink] Hfound Hpn.
  destruct (save_ticket_found ticket s old Hfound) as (idx & Hidx & Hid & _ & ->).
  split; cbn.
  - by rewrite (fmap_insert_same_key Ticket.ticketId _ idx old ticket).
  - apply Forall_insert; [exact Hpos|].
    rewrite <- Hid. by eapply Forall_lookup_1 in Hpos.
  - destruct (Forall2_lookup_r _ _ _ _ _ Hlink Hidx) as (b & Hb & [Hbid Hbpn]).
    rewrite <- (list_insert_id (bookings s) idx b Hb).
    apply Forall2_insert; [exact Hlink|]. split; congruence.
Qed.

Section Preservation.
Context `{DateTime}.

Lemma consistent_create_booking user_id platform_number duration
    now_booking now_issue now_expiry (s : Store) :
  consistent s →
  consistent (snd (create_booking user_id platform_number duration
                                  now_booking now_issue now_expiry s)).
Proof.
  intros [Hnd Hpos Hlink].
  destruct (create_booking_shape user_id platform_number duration
                                 now_booking now_issue now_expiry s)
    as [->|(bk & tk & -> & _ & Htk & Hbt & Hpn & _)]; [by split|].
  split; cbn.
  - rewrite fmap_app. apply NoDup_app. split; [exact Hnd|]. split.
    + intros id Hid Hnew. apply list_elem_of_singleton in Hnew as ->.
      rewrite Htk in Hid. by apply get_next_id_not_stored in Hid.
    + apply NoDup_singleton.
  - apply Forall_app. split; [exact Hpos|]. constructor; [|constructor].
    rewrite Htk. by apply get_next_id_positive.
  - apply Forall2_app; [exact Hlink|]. by repeat constructor.
Qed.

Lemma consistent_book user_id platform_number duration
    now_booking now_issue now_expiry (s : Store) :
  consistent s →
  consistent (book user_id platform_number duration
                   now_booking now_issue now_expiry s).
Proof.
  intros Hs. unfold book.
  destruct (check_platform_availability s platform_number) as [[] msg]; cbn [negb];
    [by apply consistent_create_booking|exact Hs].
Qed.

Lemma consistent_process_payment_with success booking_id amount now (s : Store) :
  consistent s →
  consistent (snd (process_payment_with success booking_id amount now s)).
Proof.
  intros Hs. unfold process_payment_with. cbn beta zeta. cbn [snd].
  set (s1 := mk_store _ _ _ (payments s ++ _)).
  assert (consistent s1) as Hs1 by by apply consistent_payments.
  destruct (find_by Booking.bookingId _ _) as [booking|]; [|exact Hs1].
  destruct (find_by Ticket.ticketId _ _) as [ticket|] eqn:Hticket; [|exact Hs1].
  apply find_by_Some in Hticket as Hid. destruct Hid as [_ Hid].
  destruct success;
    (eapply (consistent_save_ticket _ ticket); [exact Hs1| |reflexivity]);
    by rewrite set_status_ticketId, Hid.
Qed.

Lemma consistent_ticket_details user_id booking_id now (s : Store) :
  consistent s → consistent (ticket_details user_id booking_id now s).
Proof.
  intros Hs. unfold ticket_details.
  destruct (find_by Booking.bookingId _ _) as [booking|]; [|exact Hs].
  case_bool_decide; [exact Hs|].
  destruct (find_by Ticket.ticketId _ _) as [ticket|] eqn:Hticket; [|exact Hs].
  apply find_by_Some in Hticket as Hid. destruct Hid as [_ Hid].
  destruct (update_ticket_state_keeps_identity now ticket) as [Hsame Hpn].
  eapply (consistent_save_ticket _ ticket); [exact Hs| |exact Hpn].
  by rewrite Hsame, Hid.
Qed.

Lemma consistent_step (s : Store) (o : op) : consistent s → consistent (step s o).
Proof.
  intros Hs. destruct o; cbn [step].
  - by apply consistent_book.
  - by apply consistent_process_payment_with.
  - by apply consistent_ticket_details.
Qed.

Lemma consistent_run (ops : list op) (s : Store) :
  consistent s → consistent (run ops s).
Proof.
  revert s. induction ops as [|o ops IH]; intros s Hs; [exact Hs|].
  apply IH, consistent_step, Hs.
Qed.

(** No request touches the platform file. *)
Lemma platforms_step (s : Store) (o : op) : platforms (step s o) = platforms s.
Proof.
  destruct o as [u pn d n1 n2 n3| |]; cbn [step].
  - unfold book. destruct (check_platform_availability _ _) as [[] ?]; cbn [negb];
      [|reflexivity].
    by destruct (create_booking_shape u pn d n1 n2 n3 s) as [->|(bk & tk & -> & _)].
  - unfold process_payment, process_payment_with, save_ticket.
    cbn. by repeat case_match.
  - unfold ticket_details, save_ticket. by repeat case_match.
Qed.

Lemma platforms_run (ops : list op) (s : Store) :
  platforms (run ops s) = platforms s.
Proof.
  revert s. induction ops as [|o ops IH]; intros s; [reflexivity|].
  cbn. unfold run in IH. by rewrite IH, platforms_step.
Qed.
End Preservation.

(** ** Counting bookings and counting tickets agree *)

Lemma consistent_ticket_ids (s : Store) :
  consistent s → Forall (λ b, Booking.ticketId b ≠ 0) (bookings s).
Proof.
  intros [_ Hpos Hlink]. apply Forall_forall. intros b Hb.
  apply list_elem_of_lookup in Hb as [i Hi].
  destruct (Forall2_lookup_l _ _ _ _ _ Hlink Hi) as (t & Ht & [Hid _]).
  eapply Forall_lookup_1 in Hpos; [|exact Ht]. cbn in Hpos. lia.
Qed.

Lemma linked_counts_agree (s : Store) (platform_number : Z)
    (bs : list Booking.t) (ts : list Ticket.t) :
  Forall2 linked bs ts →
  (∀ t, t ∈ ts → find_by Ticket.ticketId (Ticket.ticketId t) (tickets s) = Some t) →
  length (filter (λ b, Booking.platformNumber b = platform_number
                       ∧ Ticket.status <$> linked_ticket s b = Some Active) bs)
  = length (filter (λ t, Ticket.status t = Active
                         ∧ Ticket.platformNumber t = platform_number) ts).
Proof.
  induction 1 as [|b t bs ts [Hid Hpn] Hrest IH]; intros Hfind; [reflexivity|].
  assert (linked_ticket s b = Some t) as Hb.
  { unfold linked_ticket. rewrite Hid. apply Hfind. left. }
  specialize (IH (λ t' Ht', Hfind t' (list_elem_of_further _ _ _ Ht'))).
  rewrite !filter_cons, Hb. cbn [fmap option_fmap option_map].
  destruct (decide (Booking.platformNumber b = platform_number ∧ _)) as [[? [= ?]]|Hno];
    destruct (decide (Ticket.status t = Active ∧ _)) as [[? ?]|Hno'];
    cbn [length]; rewrite ?IH; try reflexivity.
  - exfalso. apply Hno'. split; congruence.
  - exfalso. apply Hno. split; [congruence|]. by f_equal.
Qed.

Lemma active_bookings_active_tickets (s : Store) (platform_number : Z) :
  consistent s →
  active_bookings s platform_number = active_tickets (tickets s) platform_number.
Proof.
  intros [Hnd Hpos Hlink]. unfold active_bookings, active_tickets. f_equal.
  apply linked_counts_agree; [exact Hlink|].
  intros t Ht. by apply find_by_NoDup.
Qed.

Lemma active_count_active_tickets (s : Store) (platform_number : Z) :
  consistent s →
  active_count (bookings s) (tickets s) platform_number
  = active_tickets (tickets s) platform_number.
Proof.
  intros Hs. rewrite active_count_active_bookings by by apply consistent_ticket_ids.
  by apply active_bookings_active_tickets.
Qed.

Lemma active_tickets_pending (ts : list Ticket.t) (ticket : Ticket.t) pn :
  Ticket.status ticket = PendingPayment →
  active_tickets (ts ++ [ticket]) pn = active_tickets ts pn.
Proof.
  intros Hst. unfold active_tickets. rewrite filter_app, filter_cons, filter_nil.
  rewrite decide_False; [by rewrite app_nil_r|].
  rewrite Hst. by intros [? _].
Qed.

Section Capacity.
Context `{DateTime}.

(** C1, as it holds: in every store reached from a fresh installation by
    booking posts, payments and ticket views, a booking that is created for
    a platform right after the availability check allowed it leaves the
    number of [Active] tickets of that platform strictly below the capacity
    of the platform, so within it. *)
Theorem capacity_respected_on_booked_platform
    (plats : list Platform.t) (ops : list op)
    (user_id platform_number duration now_booking now_issue now_expiry : Z)
    (platform : Platform.t) :
  let s := run ops (init plats) in
  let s' := snd (create_booking user_id platform_number duration
                                now_booking now_issue now_expiry s) in
  (check_platform_availability s platform_number).1 = true →
  find_by Platform.platformNumber platform_number plats = Some platform →
  s' = book user_id platform_number duration now_booking now_issue now_expiry s
  ∧ active_tickets (tickets s') platform_number < Platform.capacity platform.
Proof.
  intros s s' Hcheck Hplatform.
  assert (consistent s) as Hs by apply consistent_run, consistent_init.
  split.
  - unfold book. destruct (check_platform_availability s platform_number) as [ok msg].
    cbn in Hcheck. by rewrite Hcheck.
  - assert (active_tickets (tickets s') platform_number
            = active_tickets (tickets s) platform_number) as ->.
    { subst s'.
      destruct (create_booking_shape user_id platform_number duration
                                     now_booking now_issue now_expiry s)
        as [->|(bk & tk & -> & _ & _ & _ & _ & Hpending)]; [reflexivity|].
      by apply active_tickets_pending. }
    rewrite <- active_count_active_tickets by exact Hs.
    pose proof (check_platform_availability_cases s platform_number) as Hcases.
    assert (platforms s = plats) as Hplats by apply platforms_run.
    rewrite Hplats, Hplatform in Hcases.
    destruct Hcases as [[_ Hfull]|[Hroom _]]; [|exact Hroom].
    rewrite Hfull in Hcheck. discriminate Hcheck.
Qed.
End Capacity.

(** C1, as stated, fails: two bookings of platform 1 (capacity 1) are both
    admitted while the first is still pending, both are then paid, and a
    later booking of platform 2 commits while platform 1 holds two active
    tickets. *)
Lemma capacity_respected_on_every_platform_counterexample :
  ¬ @capacity_respected_on_every_platform micros_clock.
Proof.
  intros Hstated.
  specialize (Hstated demo_platforms
                [Book 7 1 2 0 0 0; Book 8 1 2 1 1 1; Pay 1 20 5; Pay 2 20 6]
                9 2 2 7 7 7 (Platform.mk 1 1)).
  cbn zeta in Hstated.
  assert (Platform.mk 1 1 ∈ demo_platforms) as Hin by left.
  specialize (Hstated eq_refl Hin).
  vm_compute in Hstated. by apply Hstated.
Qed.

Lemma capacity_respected_on_booked_platform_witness :
  active_tickets
    (tickets (snd (@create_booking micros_clock 9 2 2 7 7 7
                     (@run micros_clock
                        [Book 7 1 2 0 0 0; Book 8 1 2 1 1 1; Pay 1 20 5; Pay 2 20 6]
                        (init demo_platforms))))) 2
  < 1.
Proof.
  apply (@capacity_respected_on_booked_platform micros_clock demo_platforms
           [Book 7 1 2 0 0 0; Book 8 1 2 1 1 1; Pay 1 20 5; Pay 2 20 6]
           9 2 2 7 7 7 (Platform.mk 2 1)); reflexivity.
Defined.

(** ** The ticket state machine *)

Section Edges.
Context `{DateTime}.

(** The refresh moves a ticket along the edge from [Active] to [Expired]
    only. *)
Lemma update_ticket_state_legal_edge now ticket :
  Ticket.status (update_ticket_state now ticket) ≠ Ticket.status ticket →
  legal_edge (Ticket.status ticket) (Ticket.status (update_ticket_state now ticket)).
Proof.
  intros Hchanged.
  destruct (update_ticket_state_status now ticket) as [Hsame|[Hactive ->]];
    [done|].
  right. right. by split.
Qed.

(** The settlement writes its status over any previous one. *)
Lemma process_payment_overwrites booking_id amount now s booking ticket :
  find_by Booking.bookingId booking_id (bookings s) = Some booking →
  linked_ticket s booking = Some ticket →
  status_of (snd (process_payment booking_id amount now s)) (Booking.ticketId booking)
  = Some Active.
Proof.
  intros Hb Ht. unfold status_of.
  destruct (process_payment_with_tickets true booking_id amount now s booking ticket
              Hb Ht) as (idx & Hidx & Hbefore & Htickets).
  unfold process_payment. cbn zeta. rewrite Htickets.
  apply find_by_Some in Ht as [_ Hid]. rewrite <- Hid.
  rewrite <- (set_status_ticketId Active ticket).
  erewrite find_by_insert_first; [reflexivity|exact Hidx|].
  intros j y Hj Hlt. rewrite set_status_ticketId. eauto.
Qed.
End Edges.

(** C2 on the code: the ticket of booking 1 is pending after the booking,
    active after the payment, expired when viewed after its expiry time, and
    active again after a second payment post for the same booking. *)
Theorem expired_ticket_is_reactivated :
  status_of demo_booked 1 = Some PendingPayment
  ∧ status_of demo_paid 1 = Some Active
  ∧ status_of demo_expired 1 = Some Expired
  ∧ status_of (@step micros_clock demo_expired (Pay 1 20 7200000002)) 1 = Some Active.
Proof. repeat split. Qed.

Lemma transitions_are_legal_fails : ¬ @transitions_are_legal micros_clock.
Proof.
  intros Hlegal.
  specialize (Hlegal demo_platforms
                [Book 7 1 2 0 0 0; Pay 1 20 5; View 7 1 7200000001]
                (Pay 1 20 7200000002) 1 Expired Active eq_refl eq_refl).
  destruct Hlegal as [[? _]|[[? _]|[? _]]]; discriminate.
Qed.

(** ** Scenarios *)

(** A platform of capacity 1: the booking is pending with an expiry two
    hours after issue, the payment activates it, and the platform is then
    full. *)
Example scenario_single_slot :
  tickets demo_booked = [sample_ticket PendingPayment "7200000000"]
  ∧ tickets demo_paid = [sample_ticket Active "7200000000"]
  ∧ check_platform_availability demo_paid 1 = (false, "Platform 1 is full.").
Proof. repeat split. Qed.

(** A failed settlement cancels the ticket, which then does not count
    towards the capacity. *)
Example scenario_failed_payment :
  let s := snd (@process_payment_with micros_clock false 1 20 5 demo_booked) in
  tickets s = [sample_ticket Cancelled "7200000000"]
  ∧ check_platform_availability s 1 = (true, "Available").
Proof. repeat split. Qed.

(** An active ticket past its expiry time expires on the first refresh and
    is left alone by the second. *)
Example scenario_lazy_expiry :
  let t := @update_ticket_state micros_clock 7200000001
             (sample_ticket Active "7200000000") in
  t = sample_ticket Expired "7200000000"
  ∧ @update_ticket_state micros_clock 7200000001 t = t.
Proof. repeat split. Qed.


(** * Further properties of the code *)

(** ** Identifier allocation *)

Section Allocation.
Context {A : Type} (key : A → Z).

(** [get_next_id] never hands out an identifier that is stored already: the
    result lies strictly above every stored identifier, and it is at least
    1 whenever no stored identifier is negative. *)
Theorem get_next_id_above_stored (data : list A) :
  (∀ x, x ∈ data → key x < get_next_id data key)
  ∧ (get_next_id data key ∉ (key <$> data))
  ∧ (Forall (λ x, 0 ≤ key x) data → 1 ≤ get_next_id data key).
Proof.
  split; [|split].
  - intros x Hx. by apply get_next_id_fresh.
  - apply get_next_id_not_stored.
  - destruct data as [|y rest]; intros Hall; [reflexivity|].
    apply Forall_cons in Hall as [Hy _].
    pose proof (get_next_id_fresh key (y :: rest) y ltac:(left)). lia.
Qed.

Lemma get_next_id_snoc (data : list A) (x : A) :
  get_next_id (data ++ [x]) key =
  match data with
  | [] => key x + 1
  | _ => Z.max (get_next_id data key) (key x + 1)
  end.
Proof.
  destruct data as [|y rest]; [reflexivity|].
  cbn [app get_next_id]. rewrite fmap_snoc, foldl_snoc. lia.
Qed.

Lemma get_next_id_after_allocation (data : list A) (x : A) :
  key x = get_next_id data key →
  get_next_id (data ++ [x]) key = get_next_id data key + 1.
Proof.
  intros Hx. rewrite get_next_id_snoc. destruct data; [by rewrite Hx|lia].
Qed.

Lemma numbered_snoc_inv (data : list A) (x : A) :
  numbered key (data ++ [x]) →
  numbered key data ∧ key x = Z.of_nat (length data) + 1.
Proof.
  unfold numbered. rewrite length_app, fmap_app. cbn [length fmap list_fmap].
  replace (length data + 1)%nat with (S (length data)) by lia.
  rewrite seqZ_S. intros Heq. apply app_inj_tail in Heq as [Hdata Hx].
  split; [exact Hdata|lia].
Qed.

Lemma numbered_next (data : list A) :
  numbered key data → get_next_id data key = Z.of_nat (length data) + 1.
Proof.
  induction data as [|x data IH] using rev_ind; intros Hnum; [reflexivity|].
  apply numbered_snoc_inv in Hnum as [Hdata Hx].
  rewrite get_next_id_snoc, length_app. cbn [length].
  specialize (IH Hdata). destruct data; [cbn in *; lia|]. lia.
Qed.

Lemma numbered_snoc (data : list A) (x : A) :
  numbered key data → key x = get_next_id data key → numbered key (data ++ [x]).
Proof.
  intros Hnum Hx. rewrite (numbered_next data Hnum) in Hx.
  unfold numbered in *. rewrite length_app, fmap_app. cbn [length fmap list_fmap].
  replace (length data + 1)%nat with (S (length data)) by lia.
  rewrite seqZ_S, Hnum, Hx. f_equal. f_equal. lia.
Qed.

(** Records that each received the identifier [get_next_id] gave are
    numbered 1, 2, 3, ... without gaps: after a record is stored under the
    allocated identifier, the next identifier is one higher. *)
Theorem get_next_id_consecutive (data : list A) (x : A) :
  key x = get_next_id data key →
  get_next_id (data ++ [x]) key = get_next_id data key + 1
  ∧ (numbered key data → numbered key (data ++ [x])).
Proof.
  intros Hx. split; [by apply get_next_id_after_allocation|].
  intros Hnum. by apply numbered_snoc.
Qed.
End Allocation.

Lemma get_next_id_consecutive_witness :
  get_next_id ([Platform.mk 1 200] ++ [Platform.mk 2 150]) Platform.platformNumber
  = get_next_id [Platform.mk 1 200] Platform.platformNumber + 1.
Proof.
  apply (get_next_id_consecutive Platform.platformNumber
           [Platform.mk 1 200] (Platform.mk 2 150)).
  reflexivity.
Defined.

(** ** What every request keeps *)

Lemma fmap_insert_same {A B} (f : A → B) (l : list A) idx old new :
  l !! idx = Some old → f new = f old → f <$> <[idx:=new]> l = f <$> l.
Proof.
  intros Hidx Hf. rewrite list_fmap_insert. apply list_insert_id.
  by rewrite list_lookup_fmap, Hidx, Hf.
Qed.

(** A saved ticket that has the identity of the stored ticket it replaces
    changes neither the number nor the identity of the stored tickets. *)
Lemma save_ticket_identity (ticket old : Ticket.t) (s : Store) :
  find_by Ticket.ticketId (Ticket.ticketId ticket) (tickets s) = Some old →
  ticket_identity ticket = ticket_identity old →
  ticket_identity <$> tickets (save_ticket ticket s) = ticket_identity <$> tickets s
  ∧ bookings (save_ticket ticket s) = bookings s
  ∧ payments (save_ticket ticket s) = payments s.
Proof.
  intros Hfound Hsame.
  destruct (save_ticket_found ticket s old Hfound) as (idx & Hidx & _ & _ & ->).
  cbn. split; [|done]. by eapply fmap_insert_same.
Qed.

Lemma set_status_identity st ticket :
  ticket_identity (Ticket.set_status st ticket) = ticket_identity ticket.
Proof. reflexivity. Qed.

Section Keeps.
Context `{DateTime}.

Lemma update_ticket_state_identity now ticket :
  ticket_identity (update_ticket_state now ticket) = ticket_identity ticket.
Proof.
  destruct (update_ticket_state_status now ticket) as [Hst|[_ ->]]; [|done].
  unfold update_ticket_state in *. by repeat case_match.
Qed.

Lemma process_payment_with_shape success booking_id amount now (s : Store) :
  let s' := snd (process_payment_with success booking_id amount now s) in
  ticket_identity <$> tickets s' = ticket_identity <$> tickets s
  ∧ bookings s' = bookings s
  ∧ ∃ payment,
      payments s' = payments s ++ [payment]
      ∧ Payment.paymentId payment = get_next_id (payments s) Payment.paymentId
      ∧ Payment.paymentStatus payment = if success then "SUCCESS" else "FAILED".
Proof.
  unfold process_payment_with. cbn beta zeta. cbn [snd].
  set (payment := Payment.mk _ _ _ _ _).
  set (s1 := mk_store _ _ _ (payments s ++ _)).
  assert (∀ s2, ticket_identity <$> tickets s2 = ticket_identity <$> tickets s1 →
                bookings s2 = bookings s1 → payments s2 = payments s1 →
                ticket_identity <$> tickets s2 = ticket_identity <$> tickets s
                ∧ bookings s2 = bookings s
                ∧ ∃ p, payments s2 = payments s ++ [p]
                       ∧ Payment.paymentId p = get_next_id (payments s) Payment.paymentId
                       ∧ Payment.paymentStatus p
                         = if success then "SUCCESS" else "FAILED") as Hdone.
  { intros s2 -> -> ->. repeat split. by exists payment. }
  destruct (find_by Booking.bookingId _ _) as [booking|]; [|by apply Hdone].
  destruct (find_by Ticket.ticketId _ _) as [ticket|] eqn:Hticket; [|by apply Hdone].
  apply find_by_Some in Hticket as Hid. destruct Hid as [_ Hid].
  set (ticket' := if success then _ else _).
  assert (ticket_identity ticket' = ticket_identity ticket
          ∧ Ticket.ticketId ticket' = Ticket.ticketId ticket) as [Hsame Hid'].
  { by destruct success. }
  destruct (save_ticket_identity ticket' ticket s1) as (Ht & Hb & Hp);
    [by rewrite Hid', Hid|exact Hsame|].
  by apply Hdone.
Qed.

Lemma ticket_details_shape user_id booking_id now (s : Store) :
  let s' := ticket_details user_id booking_id now s in
  ticket_identity <$> tickets s' = ticket_identity <$> tickets s
  ∧ bookings s' = bookings s
  ∧ payments s' = payments s.
Proof.
  unfold ticket_details.
  destruct (find_by Booking.bookingId _ _) as [booking|]; [|done].
  case_bool_decide; [done|].
  destruct (find_by Ticket.ticketId _ _) as [ticket|] eqn:Hticket; [|done].
  apply find_by_Some in Hticket as Hid. destruct Hid as [_ Hid].
  apply (save_ticket_identity _ ticket).
  - destruct (update_ticket_state_keeps_identity now ticket) as [-> _].
    by rewrite Hid.
  - apply update_ticket_state_identity.
Qed.

Lemma book_shape user_id platform_number duration now_booking now_issue now_expiry
    (s : Store) :
  let s' := book user_id platform_number duration now_booking now_issue now_expiry s in
  s' = s
  ∨ ∃ booking ticket,
      bookings s' = bookings s ++ [booking]
      ∧ tickets s' = tickets s ++ [ticket]
      ∧ payments s' = payments s
      ∧ Booking.bookingId booking = get_next_id (bookings s) Booking.bookingId
      ∧ Ticket.ticketId ticket = get_next_id (tickets s) Ticket.ticketId
      ∧ Booking.ticketId booking = Ticket.ticketId ticket
      ∧ Ticket.status ticket = PendingPayment.
Proof.
  unfold book.
  destruct (check_platform_availability s platform_number) as [[] msg]; cbn [negb];
    [|by left].
  destruct (create_booking_shape user_id platform_number duration
                                 now_booking now_issue now_expiry s)
    as [->|(bk & tk & -> & Hbk & Htk & Hbt & _ & Hst)]; [by left|right].
  by exists bk, tk.
Qed.

(** Requests only ever append to the booking file and the payment file,
    and a stored ticket keeps its identifier, times and platform for good:
    below any sequence of requests the old bookings, the old payments and
    the identities of the old tickets are still there, in place. *)
Theorem run_appends_only (ops : list op) (s : Store) :
  bookings s `prefix_of` bookings (run ops s)
  ∧ payments s `prefix_of` payments (run ops s)
  ∧ (ticket_identity <$> tickets s) `prefix_of` (ticket_identity <$> tickets (run ops s)).
Proof.
  revert s. induction ops as [|o ops IH]; intros s; [done|].
  cbn [run foldl]. destruct (IH (step s o)) as (Hb & Hp & Ht).
  assert (bookings s `prefix_of` bookings (step s o)
          ∧ payments s `prefix_of` payments (step s o)
          ∧ (ticket_identity <$> tickets s)
              `prefix_of` (ticket_identity <$> tickets (step s o)))
    as (Hb1 & Hp1 & Ht1).
  { destruct o as [u pn d n1 n2 n3|b a n|u b n]; cbn [step].
    - destruct (book_shape u pn d n1 n2 n3 s)
        as [->|(bk & tk & -> & -> & -> & _)]; [done|].
      rewrite fmap_app. repeat split; try done; by apply prefix_app_r.
    - destruct (process_payment_with_shape true b a n s)
        as (Ht1 & Hb1 & p & Hp1 & _).
      unfold process_payment. cbn zeta. rewrite Ht1, Hb1, Hp1.
      repeat split; try done. by apply prefix_app_r.
    - destruct (ticket_details_shape u b n s) as (-> & -> & ->). done. }
  unfold run in *. repeat split; etrans; eauto.
Qed.

Lemma step_numbers_records (s : Store) (o : op) :
  numbered Booking.bookingId (bookings s)
  ∧ numbered Ticket.ticketId (tickets s)
  ∧ numbered Payment.paymentId (payments s)
  ∧ length (tickets s) = length (bookings s)
  ∧ Booking.ticketId <$> bookings s = Booking.bookingId <$> bookings s →
  numbered Booking.bookingId (bookings (step s o))
  ∧ numbered Ticket.ticketId (tickets (step s o))
  ∧ numbered Payment.paymentId (payments (step s o))
  ∧ length (tickets (step s o)) = length (bookings (step s o))
  ∧ Booking.ticketId <$> bookings (step s o)
    = Booking.bookingId <$> bookings (step s o).
Proof.
  intros (Hb & Ht & Hp & Hlen & Hlink).
  assert (∀ s', ticket_identity <$> tickets s' = ticket_identity <$> tickets s →
                numbered Ticket.ticketId (tickets s')
                ∧ length (tickets s') = length (tickets s)) as Hsame.
  { intros s' Hid.
    assert (Ticket.ticketId <$> tickets s' = Ticket.ticketId <$> tickets s) as Hids.
    { change Ticket.ticketId with ((λ i : Z * string * string * Z, i.1.1.1)
                                     ∘ ticket_identity).
      by rewrite !(list_fmap_compose ticket_identity), Hid. }
    assert (length (tickets s') = length (tickets s)) as Hl.
    { by rewrite <- (length_fmap ticket_identity), Hid, length_fmap. }
    split; [|exact Hl]. unfold numbered in *. by rewrite Hids, Hl. }
  destruct o as [u pn d n1 n2 n3|b a n|u b n]; cbn [step].
  - destruct (book_shape u pn d n1 n2 n3 s)
      as [->|(bk & tk & -> & -> & -> & Hbk & Htk & Hbt & _)]; [done|].
    repeat split.
    + by apply numbered_snoc.
    + by apply numbered_snoc.
    + exact Hp.
    + rewrite !length_app. cbn. lia.
    + rewrite !fmap_app, Hlink. cbn. f_equal. f_equal.
      rewrite Hbt, Htk, Hbk, (numbered_next _ _ Hb), (numbered_next _ _ Ht). lia.
  - destruct (process_payment_with_shape true b a n s)
      as (Ht1 & Hb1 & p & Hp1 & Hpid & _).
    unfold process_payment. cbn zeta.
    destruct (Hsame _ Ht1) as [Hnum Hl]. rewrite Hb1, Hp1, Hl.
    repeat split; try done. by apply numbered_snoc.
  - destruct (ticket_details_shape u b n s) as (Ht1 & Hb1 & Hp1).
    destruct (Hsame _ Ht1) as [Hnum Hl]. rewrite Hb1, Hp1, Hl. done.
Qed.

(** In every store reached from a fresh installation the bookings, the
    tickets and the payments are numbered 1, 2, 3, ... in the order they
    were made, there are as many tickets as bookings, and each booking
    carries its own number as [ticketId]. *)
Theorem run_numbers_records (plats : list Platform.t) (ops : list op) :
  let s := run ops (init plats) in
  numbered Booking.bookingId (bookings s)
  ∧ numbered Ticket.ticketId (tickets s)
  ∧ numbered Payment.paymentId (payments s)
  ∧ length (tickets s) = length (bookings s)
  ∧ Booking.ticketId <$> bookings s = Booking.bookingId <$> bookings s.
Proof.
  cbn zeta.
  assert (∀ s, (numbered Booking.bookingId (bookings s)
                ∧ numbered Ticket.ticketId (tickets s)
                ∧ numbered Payment.paymentId (payments s)
                ∧ length (tickets s) = length (bookings s)
                ∧ Booking.ticketId <$> bookings s = Booking.bookingId <$> bookings s) →
               numbered Booking.bookingId (bookings (run ops s))
               ∧ numbered Ticket.ticketId (tickets (run ops s))
               ∧ numbered Payment.paymentId (payments (run ops s))
               ∧ length (tickets (run ops s)) = length (bookings (run ops s))
               ∧ Booking.ticketId <$> bookings (run ops s)
                 = Booking.bookingId <$> bookings (run ops s)) as Hrun.
  { induction ops as [|o ops IH]; intros s Hs; [exact Hs|].
    cbn [run foldl]. by apply IH, step_numbers_records. }
  apply Hrun. repeat split.
Qed.
End Keeps.

(** ** Ticket statuses over time *)

Lemma status_of_save_ticket (ticket old : Ticket.t) (s : Store) (ticket_id : Z) :
  find_by Ticket.ticketId (Ticket.ticketId ticket) (tickets s) = Some old →
  status_of (save_ticket ticket s) ticket_id
  = if decide (ticket_id = Ticket.ticketId ticket) then Some (Ticket.status ticket)
    else status_of s ticket_id.
Proof.
  intros Hfound. unfold status_of.
  destruct (save_ticket_found ticket s old Hfound) as (idx & Hidx & Hid & Hbefore & ->).
  cbn [tickets]. destruct (decide (ticket_id = Ticket.ticketId ticket)) as [->|Hne].
  - by erewrite find_by_insert_first.
  - by erewrite find_by_insert_other.
Qed.

Lemma status_of_payments (s : Store) (ps : list Payment.t) ticket_id :
  status_of (mk_store (platforms s) (bookings s) (tickets s) ps) ticket_id
  = status_of s ticket_id.
Proof. reflexivity. Qed.

Section Statuses.
Context `{DateTime}.

(** What one request can do to the status of a stored ticket: leave it,
    set it to [Active] (a payment), or take it from [Active] to [Expired]
    (a view).  The ticket itself stays in the store. *)
Lemma step_status (s : Store) (o : op) (ticket_id : Z) (old : string) :
  status_of s ticket_id = Some old →
  ∃ new, status_of (step s o) ticket_id = Some new
         ∧ (new = old ∨ new = Active ∨ (old = Active ∧ new = Expired)).
Proof.
  intros Hold. destruct o as [u pn d n1 n2 n3|b a n|u b n]; cbn [step].
  - exists old. split; [|by left]. unfold book.
    destruct (check_platform_availability s pn) as [[] msg]; cbn [negb]; [|done].
    destruct (create_booking_shape u pn d n1 n2 n3 s) as [->|(bk & tk & -> & _)];
      [done|].
    unfold status_of in *. cbn [tickets]. rewrite find_by_app.
    by destruct (find_by Ticket.ticketId ticket_id (tickets s)).
  - unfold process_payment, process_payment_with. cbn beta zeta. cbn [snd].
    set (s1 := mk_store _ _ _ (payments s ++ _)).
    destruct (find_by Booking.bookingId _ _) as [booking|]; [|by exists old; auto].
    destruct (find_by Ticket.ticketId _ _) as [ticket|] eqn:Hticket;
      [|by exists old; auto].
    apply find_by_Some in Hticket as Hid. destruct Hid as [_ Hid].
    rewrite (status_of_save_ticket _ ticket) by by rewrite set_status_ticketId, Hid.
    rewrite set_status_ticketId. case_decide; [|by exists old; auto].
    exists Active. auto.
  - unfold ticket_details.
    destruct (find_by Booking.bookingId _ _) as [booking|]; [|by exists old; auto].
    case_bool_decide; [by exists old; auto|].
    destruct (find_by Ticket.ticketId _ _) as [ticket|] eqn:Hticket;
      [|by exists old; auto].
    apply find_by_Some in Hticket as Hid. destruct Hid as [_ Hid].
    destruct (update_ticket_state_keeps_identity n ticket) as [Hsame _].
    rewrite (status_of_save_ticket _ ticket) by by rewrite Hsame, Hid.
    rewrite Hsame. case_decide as Hthis; [|by exists old; auto].
    assert (old = Ticket.status ticket) as ->.
    { unfold status_of in Hold. rewrite Hthis, Hid, Hticket in Hold. by injection Hold. }
    eexists. split; [reflexivity|].
    destruct (update_ticket_state_status n ticket) as [->|[Hact ->]]; auto.
Qed.

(** Whatever requests follow, a stored ticket stays stored and its status is
    the one it had, [Active] or [Expired]: no request cancels a ticket or
    puts a paid ticket back to [Pending Payment]. *)
Theorem run_status (ops : list op) (s : Store) (ticket_id : Z) (old : string) :
  status_of s ticket_id = Some old →
  ∃ new, status_of (run ops s) ticket_id = Some new
         ∧ (new = old ∨ new = Active ∨ new = Expired).
Proof.
  revert s old. induction ops as [|o ops IH]; intros s old Hold.
  - exists old. auto.
  - cbn [run foldl]. destruct (step_status s o ticket_id old Hold) as (mid & Hmid & Hedge).
    destruct (IH (step s o) mid Hmid) as (new & Hnew & Hlast).
    exists new. split; [exact Hnew|].
    destruct Hedge as [-> | [-> | [_ ->]]]; destruct Hlast as [-> | [-> | ->]]; auto.
Qed.

Lemma step_statuses (s : Store) (o : op) :
  Forall (λ t, Ticket.status t ∈ [PendingPayment; Active; Expired]) (tickets s) →
  Forall (λ p, Payment.paymentStatus p = "SUCCESS") (payments s) →
  Forall (λ t, Ticket.status t ∈ [PendingPayment; Active; Expired]) (tickets (step s o))
  ∧ Forall (λ p, Payment.paymentStatus p = "SUCCESS") (payments (step s o)).
Proof.
  intros Ht Hp. destruct o as [u pn d n1 n2 n3|b a n|u b n]; cbn [step].
  - destruct (book_shape u pn d n1 n2 n3 s)
      as [->|(bk & tk & _ & -> & -> & _ & _ & _ & Hst)]; [done|].
    split; [|done]. apply Forall_app. split; [done|].
    constructor; [|constructor]. rewrite Hst. left.
  - destruct (process_payment_with_shape true b a n s) as (_ & _ & p & Hp1 & _ & Hst).
    unfold process_payment. cbn zeta. rewrite Hp1. split.
    + unfold process_payment_with. cbn beta zeta. cbn [snd].
      set (s1 := mk_store _ _ _ (payments s ++ _)).
      destruct (find_by Booking.bookingId _ _) as [booking|]; [|done].
      destruct (find_by Ticket.ticketId _ _) as [ticket|]; [|done].
      unfold save_ticket. cbn [tickets].
      destruct (list_find _ _) as [[idx found]|]; [|done].
      apply Forall_insert; [done|]. right. left.
    + apply Forall_app. split; [done|]. by constructor.
  - unfold ticket_details. split; [|by repeat case_match].
    destruct (find_by Booking.bookingId _ _) as [booking|]; [|done].
    case_bool_decide; [done|].
    destruct (find_by Ticket.ticketId _ _) as [ticket|] eqn:Hticket; [|done].
    unfold save_ticket. cbn [tickets].
    destruct (list_find _ _) as [[idx found]|]; [|done].
    apply Forall_insert; [done|].
    apply find_by_Some in Hticket as [Hin _].
    eapply Forall_forall in Ht; [|exact Hin].
    destruct (update_ticket_state_status n ticket) as [->|[_ ->]]; [done|].
    right. right. left.
Qed.

(** In every store reached from a fresh installation each ticket is
    [Pending Payment], [Active] or [Expired], and each payment is a
    [SUCCESS]: the running code never cancels a ticket and never records a
    failed payment. *)
Theorem run_never_cancels (plats : list Platform.t) (ops : list op) :
  let s := run ops (init plats) in
  Forall (λ t, Ticket.status t ∈ [PendingPayment; Active; Expired]) (tickets s)
  ∧ Forall (λ p, Payment.paymentStatus p = "SUCCESS") (payments s).
Proof.
  cbn zeta.
  assert (∀ s,
    Forall (λ t, Ticket.status t ∈ [PendingPayment; Active; Expired]) (tickets s) →
    Forall (λ p, Payment.paymentStatus p = "SUCCESS") (payments s) →
    Forall (λ t, Ticket.status t ∈ [PendingPayment; Active; Expired])
           (tickets (run ops s))
    ∧ Forall (λ p, Payment.paymentStatus p = "SUCCESS") (payments (run ops s)))
    as Hrun.
  { induction ops as [|o ops IH]; intros s Ht Hp; [done|].
    cbn [run foldl]. destruct (step_statuses s o Ht Hp). by apply IH. }
  apply Hrun; constructor.
Qed.
End Statuses.

Lemma run_status_witness :
  ∃ new, status_of (@run micros_clock [View 7 1 7200000001; Pay 1 20 7200000002]
                                      demo_paid) 1 = Some new
         ∧ (new = Active ∨ new = Active ∨ new = Expired).
Proof.
  apply (@run_status micros_clock [View 7 1 7200000001; Pay 1 20 7200000002]
                     demo_paid 1 Active).
  reflexivity.
Defined.

(** ** Capacity accounting *)

Lemma active_tickets_app (ts1 ts2 : list Ticket.t) pn :
  active_tickets (ts1 ++ ts2) pn = active_tickets ts1 pn + active_tickets ts2 pn.
Proof. unfold active_tickets. rewrite filter_app, length_app. lia. Qed.

Lemma active_tickets_cons (t : Ticket.t) (ts : list Ticket.t) pn :
  active_tickets (t :: ts) pn = occupies pn t + active_tickets ts pn.
Proof.
  unfold active_tickets, occupies. rewrite filter_cons.
  destruct (decide _); cbn [length]; lia.
Qed.

Lemma active_tickets_insert (ts : list Ticket.t) idx (old new : Ticket.t) pn :
  ts !! idx = Some old →
  active_tickets (<[idx:=new]> ts) pn
  = active_tickets ts pn - occupies pn old + occupies pn new.
Proof.
  intros Hidx.
  pose proof (f_equal (λ l, active_tickets l pn) (take_drop_middle ts idx old Hidx))
    as Hsplit.
  cbn beta in Hsplit. rewrite active_tickets_app, active_tickets_cons in Hsplit.
  rewrite insert_take_drop by by eapply lookup_lt_Some.
  rewrite active_tickets_app, active_tickets_cons. lia.
Qed.

Lemma active_count_loop_nonnegative (bs : list Booking.t) (ts : list Ticket.t) pn n :
  0 ≤ n →
  0 ≤ foldl (λ n b, if counts_as_active ts pn b then n + 1 else n) n bs.
Proof.
  revert n. induction bs as [|b bs IH]; intros n Hn; [exact Hn|].
  cbn [foldl]. apply IH. destruct (counts_as_active ts pn b); lia.
Qed.

Lemma counts_as_active_pending_snoc (ts : list Ticket.t) (t : Ticket.t) pn b :
  Ticket.status t = PendingPayment →
  counts_as_active (ts ++ [t]) pn b = counts_as_active ts pn b.
Proof.
  intros Hst. unfold counts_as_active. cbn zeta.
  case_bool_decide; [|reflexivity]. case_bool_decide; [|reflexivity].
  rewrite find_by_app. destruct (find_by _ _ ts) as [found|]; [reflexivity|].
  rewrite find_by_cons, find_by_nil. case_decide; [|reflexivity].
  rewrite Hst. by apply bool_decide_eq_false_2.
Qed.

Lemma counts_as_active_fresh_pending (ts : list Ticket.t) (t : Ticket.t) pn b :
  Ticket.status t = PendingPayment →
  Ticket.ticketId t = get_next_id ts Ticket.ticketId →
  Booking.ticketId b = Ticket.ticketId t →
  counts_as_active (ts ++ [t]) pn b = false.
Proof.
  intros Hst Hfresh Hb.
  rewrite (counts_as_active_pending_snoc ts t pn b Hst).
  unfold counts_as_active. cbn zeta.
  case_bool_decide; [|reflexivity]. case_bool_decide; [|reflexivity].
  destruct (find_by _ _ ts) as [found|] eqn:Hfound; [|reflexivity].
  apply find_by_Some in Hfound as [Hin Hid].
  pose proof (get_next_id_fresh Ticket.ticketId ts found Hin). lia.
Qed.

Section Accounting.
Context `{DateTime}.

(** A settlement of a stored booking with a stored ticket adds one active
    ticket to the ticket's platform when the ticket was not active, and
    nothing otherwise: paying twice does not take a second unit, and
    paying an expired ticket takes its unit back. *)
Theorem process_payment_active_tickets
    (booking_id amount now : Z) (s : Store) (booking : Booking.t) (ticket : Ticket.t)
    (platform_number : Z) :
  find_by Booking.bookingId booking_id (bookings s) = Some booking →
  linked_ticket s booking = Some ticket →
  active_tickets (tickets (snd (process_payment booking_id amount now s)))
                 platform_number
  = active_tickets (tickets s) platform_number
    + (if decide (Ticket.platformNumber ticket = platform_number
                  ∧ Ticket.status ticket ≠ Active) then 1 else 0).
Proof.
  intros Hb Ht.
  destruct (process_payment_with_tickets true booking_id amount now s booking ticket
              Hb Ht) as (idx & Hidx & _ & Htickets).
  unfold process_payment. cbn zeta. rewrite Htickets.
  rewrite (active_tickets_insert _ idx ticket) by exact Hidx.
  unfold occupies. cbn [Ticket.status Ticket.platformNumber Ticket.set_status].
  repeat case_decide; try lia; exfalso; intuition congruence.
Qed.

(** Bookings and ticket views never add an active ticket to any platform: a
    booking leaves every count as it is, a view can only lower it. *)
Theorem only_payments_fill_platforms
    (user_id platform_number duration now_booking now_issue now_expiry : Z)
    (booking_id now : Z) (s : Store) (pn : Z) :
  active_tickets
    (tickets (book user_id platform_number duration now_booking now_issue now_expiry s))
    pn
  = active_tickets (tickets s) pn
  ∧ active_tickets (tickets (ticket_details user_id booking_id now s)) pn
    ≤ active_tickets (tickets s) pn.
Proof.
  split.
  - destruct (book_shape user_id platform_number duration
                         now_booking now_issue now_expiry s)
      as [->|(bk & tk & _ & -> & _ & _ & _ & _ & Hst)]; [done|].
    by apply active_tickets_pending.
  - unfold ticket_details.
    destruct (find_by Booking.bookingId _ _) as [booking|]; [|done].
    case_bool_decide; [done|].
    destruct (find_by Ticket.ticketId _ _) as [ticket|] eqn:Hticket; [|done].
    apply find_by_Some in Hticket as Hid. destruct Hid as [_ Hid].
    destruct (update_ticket_state_keeps_identity now ticket) as [Hsame _].
    destruct (save_ticket_found (update_ticket_state now ticket) s ticket)
      as (idx & Hidx & _ & _ & ->); [by rewrite Hsame, Hid|].
    cbn [tickets]. rewrite (active_tickets_insert _ idx ticket) by exact Hidx.
    destruct (update_ticket_state_status now ticket) as [Hst|[_ ->]].
    + assert (occupies pn (update_ticket_state now ticket) = occupies pn ticket) as ->;
        [|lia].
      unfold occupies. rewrite Hst.
      by destruct (update_ticket_state_keeps_identity now ticket) as [_ ->].
    + unfold occupies. cbn [Ticket.status Ticket.platformNumber Ticket.set_status].
      rewrite (decide_False (P := Expired = Active ∧ _)) by (by intros [? _]).
      case_decide; lia.
Qed.

(** An unpaid booking takes no capacity: after a booking request the
    availability check answers for every platform what it answered
    before. *)
Theorem book_keeps_availability
    (user_id platform_number duration now_booking now_issue now_expiry : Z)
    (s : Store) (pn : Z) :
  check_platform_availability
    (book user_id platform_number duration now_booking now_issue now_expiry s) pn
  = check_platform_availability s pn.
Proof.
  unfold book.
  destruct (check_platform_availability s platform_number) as [[] msg]; cbn [negb];
    [|reflexivity].
  destruct (create_booking_shape user_id platform_number duration
                                 now_booking now_issue now_expiry s)
    as [->|(bk & tk & -> & _ & Htk & Hbt & _ & Hpending)]; [reflexivity|].
  unfold check_platform_availability. cbn [platforms bookings tickets].
  assert (∀ bs ts t b,
            Ticket.status t = PendingPayment →
            Ticket.ticketId t = get_next_id ts Ticket.ticketId →
            Booking.ticketId b = Ticket.ticketId t →
            active_count (bs ++ [b]) (ts ++ [t]) pn = active_count bs ts pn) as Hcount.
  { intros bs ts t b Hst Hfresh Hb. unfold active_count.
    rewrite foldl_snoc, (counts_as_active_fresh_pending ts t pn b Hst Hfresh Hb).
    generalize 0. induction bs as [|b0 bs IH]; intros n; [reflexivity|].
    cbn [foldl]. by rewrite IH, (counts_as_active_pending_snoc ts t pn b0 Hst). }
  by rewrite Hcount.
Qed.
End Accounting.

(** A platform whose capacity is zero or negative, which the admin form
    accepts, is full from the start: the check refuses it in every store. *)
Theorem nonpositive_capacity_is_full (s : Store) (platform_number : Z)
    (platform : Platform.t) :
  find_by Platform.platformNumber platform_number (platforms s) = Some platform →
  Platform.capacity platform ≤ 0 →
  check_platform_availability s platform_number
  = (false, "Platform " +:+ pretty platform_number +:+ " is full.").
Proof.
  intros Hfound Hcap. unfold check_platform_availability. rewrite Hfound. cbn zeta.
  rewrite bool_decide_eq_true_2; [reflexivity|].
  pose proof (active_count_loop_nonnegative (bookings s) (tickets s) platform_number 0
                ltac:(lia)) as Hcount.
  unfold active_count. lia.
Qed.

Lemma process_payment_active_tickets_witness :
  active_tickets
    (tickets (snd (@process_payment micros_clock 1 20 7200000002 demo_expired))) 1
  = active_tickets (tickets demo_expired) 1 + 1.
Proof.
  apply (@process_payment_active_tickets micros_clock 1 20 7200000002 demo_expired
           (Booking.mk 1 7 1 "0" 2 1) (sample_ticket Expired "7200000000") 1);
    reflexivity.
Defined.

Lemma nonpositive_capacity_is_full_witness :
  check_platform_availability (init [Platform.mk 5 0]) 5
  = (false, "Platform 5 is full.").
Proof.
  apply (nonpositive_capacity_is_full (init [Platform.mk 5 0]) 5 (Platform.mk 5 0));
    [reflexivity|cbn; lia].
Defined.

(** ** The platform file *)

Lemma seed_platforms_rest (s : Store) :
  bookings (seed_platforms s) = bookings s
  ∧ tickets (seed_platforms s) = tickets s
  ∧ payments (seed_platforms s) = payments s.
Proof. unfold seed_platforms. by destruct (platforms s). Qed.

Lemma seed_platforms_stocked (s : Store) :
  platforms s ≠ [] → seed_platforms s = s.
Proof. unfold seed_platforms. by destruct (platforms s). Qed.

Lemma get_next_id_from_one {A} (key : A → Z) (data : list A) :
  Forall (λ x, 0 ≤ key x) data → 1 ≤ get_next_id data key.
Proof.
  destruct data as [|y rest]; intros Hall; [reflexivity|].
  apply Forall_cons in Hall as [Hy _].
  pose proof (get_next_id_fresh key (y :: rest) y ltac:(left)). lia.
Qed.

(** Seeding fills an empty platform file with the two default platforms,
    number 1 with capacity 200 and number 2 with capacity 150, and leaves
    any other file alone, so seeding again changes nothing, platform
    numbers that were distinct stay distinct, and bookings, tickets and
    payments are not touched. *)
Theorem seed_platforms_idempotent (s : Store) :
  seed_platforms (seed_platforms s) = seed_platforms s
  ∧ (platforms s = [] →
     platforms (seed_platforms s) = [Platform.mk 1 200; Platform.mk 2 150])
  ∧ platforms (seed_platforms s) ≠ []
  ∧ (platforms s ≠ [] → seed_platforms s = s)
  ∧ (NoDup (Platform.platformNumber <$> platforms s) →
     NoDup (Platform.platformNumber <$> platforms (seed_platforms s)))
  ∧ bookings (seed_platforms s) = bookings s
  ∧ tickets (seed_platforms s) = tickets s
  ∧ payments (seed_platforms s) = payments s.
Proof.
  unfold seed_platforms. destruct s as [[|p ps] bs ts pays]; cbn.
  - repeat split; try done. intros _. apply NoDup_cons. split.
    + intros Hin. apply list_elem_of_singleton in Hin. discriminate.
    + apply NoDup_singleton.
  - repeat split; done.
Qed.

Lemma admin_platforms_denied session action platform_number capacity (s : Store) :
  require_admin session = false →
  admin_platforms session action platform_number capacity s = (admin_required, s).
Proof. intros Hno. unfold admin_platforms. by rewrite Hno. Qed.

Lemma admin_platforms_rest session action platform_number capacity (s : Store) :
  let s' := (admin_platforms session action platform_number capacity s).2 in
  bookings s' = bookings s ∧ tickets s' = tickets s ∧ payments s' = payments s.
Proof.
  unfold admin_platforms. repeat case_match; done.
Qed.

Lemma admin_platforms_add session platform_number capacity (s : Store) :
  require_admin session = true →
  platforms (admin_platforms session "add" platform_number capacity s).2
  = if decide (Exists (λ p, Platform.platformNumber p = platform_number) (platforms s))
    then platforms s
    else platforms s ++ [Platform.mk platform_number capacity].
Proof.
  intros Hadmin. unfold admin_platforms. rewrite Hadmin. cbn [negb].
  rewrite bool_decide_eq_true_2 by reflexivity.
  case_bool_decide; case_decide; done.
Qed.

Lemma admin_platforms_update session platform_number capacity (s : Store) :
  require_admin session = true →
  platforms (admin_platforms session "update" platform_number capacity s).2
  = match list_find (λ p, Platform.platformNumber p = platform_number) (platforms s) with
    | Some (idx, p) =>
        <[idx := Platform.mk (Platform.platformNumber p) capacity]> (platforms s)
    | None => platforms s
    end.
Proof.
  intros Hadmin. unfold admin_platforms. rewrite Hadmin. cbn [negb].
  rewrite bool_decide_eq_false_2 by discriminate.
  rewrite bool_decide_eq_true_2 by reflexivity.
  by destruct (list_find _ _) as [[idx p]|].
Qed.

Lemma find_by_Exists {A} (key : A → Z) (v : Z) (l : list A) :
  find_by key v l = None ↔ ¬ Exists (λ x, key x = v) l.
Proof.
  rewrite find_by_None, Exists_exists. split.
  - intros Hall (x & Hx & Hkey). by eapply Hall.
  - intros Hno x Hx Hkey. apply Hno. eauto.
Qed.

(** Whatever the admin form posts, and whoever posts it, platform numbers
    that were distinct stay distinct, and bookings, tickets and payments
    are left alone. *)
Theorem admin_platforms_keeps_numbers_distinct
    (session : Session.t) (action : string) (platform_number capacity : Z) (s : Store) :
  NoDup (Platform.platformNumber <$> platforms s) →
  let s' := (admin_platforms session action platform_number capacity s).2 in
  NoDup (Platform.platformNumber <$> platforms s')
  ∧ bookings s' = bookings s ∧ tickets s' = tickets s ∧ payments s' = payments s.
Proof.
  intros Hnd s'. split; [|apply admin_platforms_rest].
  subst s'. unfold admin_platforms.
  destruct (require_admin session); cbn [negb]; [|exact Hnd].
  case_bool_decide.
  - case_bool_decide as Hex; [exact Hnd|]. cbn [snd platforms].
    rewrite fmap_snoc. apply NoDup_app. split; [exact Hnd|]. split.
    + intros n Hn Hnew. apply list_elem_of_singleton in Hnew as ->.
      apply Hex, Exists_exists.
      apply list_elem_of_fmap in Hn as (p & Hp & Hin). eauto.
    + apply NoDup_singleton.
  - case_bool_decide; [|exact Hnd].
    destruct (list_find _ _) as [[idx p]|] eqn:Hfind; [|exact Hnd].
    cbn [snd platforms]. apply list_find_Some in Hfind as (Hidx & _ & _).
    by rewrite (fmap_insert_same Platform.platformNumber _ idx p).
Qed.

(** An admin who adds a platform whose number is free finds it afterwards
    with the capacity given, and every other number still resolves to the
    platform it resolved to; adding a number that is taken changes
    nothing. *)
Theorem admin_add_then_lookup
    (session : Session.t) (platform_number capacity : Z) (s : Store) :
  require_admin session = true →
  let s' := (admin_platforms session "add" platform_number capacity s).2 in
  (find_by Platform.platformNumber platform_number (platforms s) = None →
   find_by Platform.platformNumber platform_number (platforms s')
   = Some (Platform.mk platform_number capacity)
   ∧ ∀ other, other ≠ platform_number →
       find_by Platform.platformNumber other (platforms s')
       = find_by Platform.platformNumber other (platforms s))
  ∧ (∀ p, find_by Platform.platformNumber platform_number (platforms s) = Some p →
          platforms s' = platforms s).
Proof.
  intros Hadmin s'. subst s'. rewrite (admin_platforms_add _ _ _ _ Hadmin).
  split.
  - intros Hfree. rewrite decide_False by by apply find_by_Exists.
    split.
    + rewrite find_by_app, Hfree, find_by_cons. by rewrite decide_True.
    + intros other Hother. rewrite find_by_app.
      destruct (find_by _ other (platforms s)); [reflexivity|].
      rewrite find_by_cons, find_by_nil. by rewrite decide_False.
  - intros p Htaken. rewrite decide_True; [reflexivity|].
    destruct (decide (Exists (λ p, Platform.platformNumber p = platform_number)
                             (platforms s))) as [|Hno]; [done|].
    apply find_by_Exists in Hno. congruence.
Qed.

(** An admin who updates a stored platform finds it afterwards under the
    same number with the new capacity, the other numbers resolve as
    before, and the availability check uses the new capacity at once, also
    when it lies below the number of active tickets; updating a number
    that is not stored changes nothing. *)
Theorem admin_update_then_lookup
    (session : Session.t) (platform_number capacity : Z) (s : Store) :
  require_admin session = true →
  let s' := (admin_platforms session "update" platform_number capacity s).2 in
  (∀ p, find_by Platform.platformNumber platform_number (platforms s) = Some p →
        find_by Platform.platformNumber platform_number (platforms s')
        = Some (Platform.mk platform_number capacity)
        ∧ (∀ other, other ≠ platform_number →
             find_by Platform.platformNumber other (platforms s')
             = find_by Platform.platformNumber other (platforms s))
        ∧ check_platform_availability s' platform_number
          = if bool_decide (capacity
                            ≤ active_count (bookings s) (tickets s) platform_number)
            then (false, "Platform " +:+ pretty platform_number +:+ " is full.")
            else (true, "Available"))
  ∧ (find_by Platform.platformNumber platform_number (platforms s) = None →
     platforms s' = platforms s).
Proof.
  intros Hadmin s'.
  pose proof (admin_platforms_update session platform_number capacity s Hadmin) as Hps.
  destruct (admin_platforms_rest session "update" platform_number capacity s)
    as (Hb & Ht & _).
  fold s' in Hps, Hb, Ht. clearbody s'. split.
  - intros p Hfound. unfold find_by in Hfound.
    destruct (list_find _ (platforms s)) as [[idx q]|] eqn:Hfind; [|discriminate].
    injection Hfound as ->. apply list_find_Some in Hfind as (Hidx & Hkey & Hbefore).
    assert (find_by Platform.platformNumber platform_number (platforms s')
            = Some (Platform.mk platform_number capacity)) as Hnew.
    { rewrite Hps, Hkey.
      apply (find_by_insert_first Platform.platformNumber _ idx p
               (Platform.mk platform_number capacity) Hidx).
      intros j y Hj Hlt. cbn. eauto. }
    split; [exact Hnew|]. split.
    + intros other Hother. rewrite Hps, Hkey.
      by apply (find_by_insert_other Platform.platformNumber _ idx p).
    + unfold check_platform_availability. by rewrite Hnew, Hb, Ht.
  - intros Hnone. unfold find_by in Hnone. rewrite Hps.
    by destruct (list_find _ (platforms s)) as [[idx q]|].
Qed.

Lemma admin_platforms_keeps_numbers_distinct_witness :
  NoDup (Platform.platformNumber
           <$> platforms (admin_platforms demo_admin "add" 3 80 demo_paid).2).
Proof.
  apply (admin_platforms_keeps_numbers_distinct demo_admin "add" 3 80 demo_paid).
  cbn. apply NoDup_cons. split; [|apply NoDup_singleton].
  intros Hin. apply list_elem_of_singleton in Hin. discriminate.
Defined.

Lemma admin_add_then_lookup_witness :
  find_by Platform.platformNumber 3
          (platforms (admin_platforms demo_admin "add" 3 80 demo_paid).2)
  = Some (Platform.mk 3 80).
Proof.
  apply (admin_add_then_lookup demo_admin 3 80 demo_paid eq_refl). reflexivity.
Defined.

Lemma admin_update_then_lookup_witness :
  check_platform_availability
    (admin_platforms demo_admin "update" 1 0 demo_paid).2 1
  = (false, "Platform 1 is full.").
Proof.
  destruct (admin_update_then_lookup demo_admin 1 0 demo_paid eq_refl) as [Hfound _].
  destruct (Hfound (Platform.mk 1 1) eq_refl) as (_ & _ & Hcheck).
  exact Hcheck.
Defined.

(** ** Users and sessions *)

Lemma authenticate_user_cons (u : User.t) (users : list User.t) email password :
  authenticate_user (u :: users) email password
  = if decide (User.email u = email ∧ User.password u = password) then Some u
    else authenticate_user users email password.
Proof.
  unfold authenticate_user. cbn [list_find].
  destruct (decide _); [reflexivity|].
  by destruct (list_find _ users) as [[i y]|].
Qed.

Lemma authenticate_user_app (users more : list User.t) email password :
  authenticate_user (users ++ more) email password
  = match authenticate_user users email password with
    | Some u => Some u
    | None => authenticate_user more email password
    end.
Proof.
  induction users as [|u users IH]; [reflexivity|].
  rewrite <- app_comm_cons, !authenticate_user_cons.
  by destruct (decide _).
Qed.

Lemma authenticate_user_no_email (users : list User.t) email password :
  ¬ Exists (λ u, User.email u = email) users →
  authenticate_user users email password = None.
Proof.
  induction users as [|u users IH]; intros Hno; [reflexivity|].
  rewrite authenticate_user_cons, decide_False.
  - apply IH. intros Hex. apply Hno. by right.
  - intros [Hemail _]. apply Hno. by left.
Qed.

(** With distinct e-mail addresses in the user file, a stored user is
    authenticated by that user's own password and by no other. *)
Theorem authenticate_user_own_password (users : list User.t) (u : User.t)
    (password : string) :
  NoDup (User.email <$> users) →
  u ∈ users →
  authenticate_user users (User.email u) password
  = if decide (password = User.password u) then Some u else None.
Proof.
  induction users as [|v users IH]; intros Hnd Hu; [inversion Hu|].
  rewrite fmap_cons in Hnd. apply NoDup_cons in Hnd as [Hv Hnd].
  rewrite authenticate_user_cons. apply elem_of_cons in Hu as [<-|Hu].
  - destruct (decide (password = User.password u)) as [->|Hpw].
    + by rewrite decide_True.
    + rewrite decide_False by (intros [_ ?]; congruence).
      apply authenticate_user_no_email. intros Hex.
      apply Exists_exists in Hex as (w & Hw & Hemail).
      apply Hv. rewrite <- Hemail. by apply list_elem_of_fmap_2.
  - rewrite decide_False; [by apply IH|].
    intros [Hemail _]. apply Hv. rewrite Hemail. by apply list_elem_of_fmap_2.
Qed.

Section Accounts.
Context `{FormText}.

Lemma register_cases (name email password : string) (users : list User.t) :
  let users' := (register name email password users).2 in
  users' = users
  ∨ (users' = users ++ [User.mk (get_next_id users User.userId)
                                (strip name) (strip email) (strip password)]
     ∧ strip name ≠ "" ∧ strip email ≠ "" ∧ strip password ≠ ""
     ∧ ¬ Exists (λ u, User.email u = strip email) users).
Proof.
  unfold register. cbn zeta.
  case_bool_decide as Hempty; [by left|].
  case_bool_decide as Htaken; [by left|].
  right. repeat split; try done; intros ?; apply Hempty; auto.
Qed.

(** A registration either leaves the user file as it is or appends one
    user; and a registration that went through can be followed by a login
    with the same form input, which opens a plain user session for the new
    user. *)
Theorem register_then_login (name email password : string) (users : list User.t)
    (session : Session.t) :
  let users' := (register name email password users).2 in
  users' ≠ users →
  ∃ user,
    users' = users ++ [user]
    ∧ user = User.mk (get_next_id users User.userId)
                     (strip name) (strip email) (strip password)
    ∧ authenticate_user users' (strip email) (strip password) = Some user
    ∧ (login email password users' session).2
      = Session.mk (Some (User.userId user)) (Some (User.name user))
                   false None None None.
Proof.
  intros users' Hchanged.
  destruct (register_cases name email password users)
    as [Hsame|(Husers & _ & _ & _ & Hfree)]; [done|].
  fold users' in Husers. clearbody users'. subst users'.
  eexists. split; [reflexivity|]. split; [reflexivity|].
  assert (authenticate_user
            (users ++ [User.mk (get_next_id users User.userId)
                               (strip name) (strip email) (strip password)])
            (strip email) (strip password)
          = Some (User.mk (get_next_id users User.userId)
                          (strip name) (strip email) (strip password))) as Hauth.
  { rewrite authenticate_user_app, (authenticate_user_no_email _ _ _ Hfree).
    rewrite authenticate_user_cons. by rewrite decide_True. }
  split; [exact Hauth|]. unfold login. cbn zeta. by rewrite Hauth.
Qed.

Lemma register_keeps (name email password : string) (users : list User.t) :
  NoDup (User.email <$> users) →
  numbered User.userId users →
  Forall (λ u, User.name u ≠ "" ∧ User.email u ≠ "" ∧ User.password u ≠ "") users →
  let users' := (register name email password users).2 in
  NoDup (User.email <$> users')
  ∧ numbered User.userId users'
  ∧ Forall (λ u, User.name u ≠ "" ∧ User.email u ≠ "" ∧ User.password u ≠ "") users'.
Proof.
  intros Hnd Hnum Hfields users'.
  destruct (register_cases name email password users)
    as [Hsame|(Husers & Hn & He & Hp & Hfree)];
    fold users' in Hsame || fold users' in Husers; clearbody users'; subst users';
    [done|].
  split; [|split].
  - rewrite fmap_snoc. apply NoDup_app. split; [exact Hnd|]. split.
    + intros e He' Hnew. apply list_elem_of_singleton in Hnew as ->.
      apply Hfree, Exists_exists.
      apply list_elem_of_fmap in He' as (u & Hu & Hin). eauto.
    + apply NoDup_singleton.
  - by apply numbered_snoc.
  - apply Forall_app. split; [exact Hfields|]. by repeat constructor.
Qed.

(** Users registered one after the other into an empty user file have
    distinct e-mail addresses, the identifiers 1, 2, 3, ... and no empty
    name, e-mail address or password. *)
Theorem registered_users_wellformed (forms : list (string * string * string)) :
  let users := register_all forms [] in
  NoDup (User.email <$> users)
  ∧ numbered User.userId users
  ∧ Forall (λ u, User.name u ≠ "" ∧ User.email u ≠ "" ∧ User.password u ≠ "") users.
Proof.
  cbn zeta.
  assert (∀ users,
    NoDup (User.email <$> users) ∧ numbered User.userId users
    ∧ Forall (λ u, User.name u ≠ "" ∧ User.email u ≠ "" ∧ User.password u ≠ "") users →
    NoDup (User.email <$> register_all forms users)
    ∧ numbered User.userId (register_all forms users)
    ∧ Forall (λ u, User.name u ≠ "" ∧ User.email u ≠ "" ∧ User.password u ≠ "")
             (register_all forms users)) as Hall.
  { induction forms as [|[[n e] p] forms IH]; intros users Hs; [exact Hs|].
    cbn [register_all foldl]. apply IH. destruct Hs as (Hnd & Hnum & Hfields).
    by apply register_keeps. }
  apply Hall. repeat split; constructor.
Qed.

(** After a login that went through, the session names exactly the
    authenticated user as the logged-in user, provided user identifiers
    are distinct and none is 0 (an identifier 0 counts as not logged
    in). *)
Theorem login_then_current_user (email password : string) (users : list User.t)
    (session : Session.t) (user : User.t) :
  NoDup (User.userId <$> users) →
  Forall (λ u, User.userId u ≠ 0) users →
  authenticate_user users (strip email) (strip password) = Some user →
  get_logged_in_user users (login email password users session).2 = Some user.
Proof.
  intros Hnd Hids Hauth. unfold login. cbn zeta. rewrite Hauth. cbn [snd].
  assert (user ∈ users) as Hin.
  { unfold authenticate_user in Hauth.
    destruct (list_find _ users) as [[i u]|] eqn:Hfind; [|discriminate].
    injection Hauth as ->. apply list_find_Some in Hfind as (Hi & _).
    by eapply list_elem_of_lookup_2. }
  unfold get_logged_in_user. cbn.
  rewrite bool_decide_eq_false_2 by by eapply Forall_forall in Hids.
  by apply find_by_NoDup.
Qed.

(** From a fresh session, no sequence of logins and logouts of either kind
    leaves a session that is both a user session and an admin session:
    each login clears what the other one set. *)
Theorem session_never_user_and_admin (users : list User.t) (ops : list auth_op) :
  let session := foldl (auth_step users) Session.empty ops in
  Session.admin session = true →
  Session.user_id session = None ∧ get_logged_in_user users session = None.
Proof.
  cbn zeta.
  assert (∀ session,
    (Session.admin session = true → Session.user_id session = None) →
    Session.admin (foldl (auth_step users) session ops) = true →
    Session.user_id (foldl (auth_step users) session ops) = None) as Hrun.
  { induction ops as [|o ops IH]; intros session Hs; [exact Hs|].
    cbn [foldl]. apply IH. destruct o as [e p| |e p|]; cbn [auth_step].
    - unfold login. cbn zeta. by destruct (authenticate_user _ _ _).
    - done.
    - unfold admin_login. cbn zeta. by case_bool_decide.
    - done. }
  intros Hadmin. specialize (Hrun Session.empty ltac:(done) Hadmin).
  split; [exact Hrun|]. unfold get_logged_in_user. by rewrite Hrun.
Qed.
End Accounts.

Lemma authenticate_user_own_password_witness :
  authenticate_user demo_users "ben@example.org" "pw1" = None
  ∧ authenticate_user demo_users "ben@example.org" "pw2"
    = Some (User.mk 2 "Ben" "ben@example.org" "pw2").
Proof.
  assert (NoDup (User.email <$> demo_users)) as Hnd.
  { cbn. apply NoDup_cons. split; [|apply NoDup_singleton].
    intros Hin. apply list_elem_of_singleton in Hin. discriminate. }
  assert (User.mk 2 "Ben" "ben@example.org" "pw2" ∈ demo_users) as Hin
    by (right; left).
  split.
  - exact (authenticate_user_own_password demo_users _ "pw1" Hnd Hin).
  - exact (authenticate_user_own_password demo_users _ "pw2" Hnd Hin).
Defined.

Lemma register_then_login_witness :
  ∃ user,
    (@register space_text "Cleo " " cleo@example.org" "pw3" demo_users).2
    = demo_users ++ [user]
    ∧ user = User.mk 3 "Cleo" "cleo@example.org" "pw3"
    ∧ authenticate_user
        (@register space_text "Cleo " " cleo@example.org" "pw3" demo_users).2
        "cleo@example.org" "pw3" = Some user
    ∧ (@login space_text " cleo@example.org" "pw3"
         (@register space_text "Cleo " " cleo@example.org" "pw3" demo_users).2
         Session.empty).2
      = Session.mk (Some (User.userId user)) (Some (User.name user))
                   false None None None.
Proof.
  apply (@register_then_login space_text "Cleo " " cleo@example.org" "pw3"
           demo_users Session.empty).
  vm_compute. discriminate.
Defined.

Lemma login_then_current_user_witness :
  get_logged_in_user demo_users demo_session
  = Some (User.mk 1 "Asha" "asha@example.org" "pw1").
Proof.
  apply (@login_then_current_user space_text "asha@example.org" " pw1" demo_users
           Session.empty).
  - cbn. apply NoDup_cons. split; [|apply NoDup_singleton].
    intros Hin. apply list_elem_of_singleton in Hin. discriminate.
  - by repeat constructor.
  - reflexivity.
Defined.

Lemma session_never_user_and_admin_witness :
  Session.user_id demo_admin = None
  ∧ get_logged_in_user demo_users demo_admin = None.
Proof.
  apply (@session_never_user_and_admin space_text demo_users
           [Login "asha@example.org" " pw1"; AdminLogin " admin@railway.com" "admin123"]).
  reflexivity.
Defined.

(** ** Python dictionaries built from a file *)

Section Dict.
Context {A : Type} (key : A → Z).

Lemma dict_by_snoc (data : list A) (x : A) :
  dict_by key (data ++ [x]) = <[key x := x]> (dict_by key data).
Proof. unfold dict_by. by rewrite foldl_snoc. Qed.

(** The dictionary holds, under each key, the last item of the file with
    that key. *)
Lemma dict_by_last (data : list A) (k : Z) :
  dict_by key data !! k = find_by key k (reverse data).
Proof.
  induction data as [|x data IH] using rev_ind; [reflexivity|].
  rewrite dict_by_snoc, reverse_snoc, find_by_cons, lookup_insert.
  by destruct (decide (key x = k)).
Qed.

(** With distinct keys that is the first item with the key as well. *)
Lemma dict_by_first (data : list A) (k : Z) :
  NoDup (key <$> data) → dict_by key data !! k = find_by key k data.
Proof.
  induction data as [|x data IH] using rev_ind; intros Hnd; [reflexivity|].
  rewrite fmap_snoc in Hnd. apply NoDup_app in Hnd as (Hnd & Hx & _).
  rewrite dict_by_snoc, find_by_app, lookup_insert, IH by exact Hnd.
  destruct (decide (key x = k)) as [<-|Hne].
  - rewrite (proj2 (find_by_None key (key x) data)).
    + rewrite find_by_cons. by rewrite decide_True.
    + intros y Hy Hkey. apply (Hx (key x)); [|left].
      rewrite <- Hkey. by apply list_elem_of_fmap_2.
  - destruct (find_by key k data); [reflexivity|].
    rewrite find_by_cons, find_by_nil. by rewrite decide_False.
Qed.
End Dict.

(** ** The views of the booking flow *)

Lemma find_by_fresh_snoc {A} (key : A → Z) (data : list A) (x : A) :
  key x = get_next_id data key → find_by key (key x) (data ++ [x]) = Some x.
Proof.
  intros Hx. rewrite find_by_app, (proj2 (find_by_None key (key x) data)).
  - rewrite find_by_cons. by rewrite decide_True.
  - intros y Hy Hkey. pose proof (get_next_id_fresh key data y Hy). lia.
Qed.

(** The history view shows each booking of the logged-in user, in file
    order, with the last stored platform and the last stored ticket that
    carry the booking's platform number and ticket identifier; when ticket
    identifiers and platform numbers are distinct these are the booking's
    linked ticket and the platform the availability check uses.  The
    tickets are shown as stored: this view does not refresh them. *)
Theorem history_rows (users : list User.t) (session : Session.t) (s : Store)
    (user : User.t) :
  get_logged_in_user users session = Some user →
  (history users session s).2
  = (λ b, (b, find_by Platform.platformNumber (Booking.platformNumber b)
                      (reverse (platforms s)),
              find_by Ticket.ticketId (Booking.ticketId b) (reverse (tickets s))))
    <$> filter (λ b, Booking.userId b = User.userId user) (bookings s)
  ∧ (NoDup (Ticket.ticketId <$> tickets s) →
     NoDup (Platform.platformNumber <$> platforms s) →
     (history users session s).2
     = (λ b, (b, find_by Platform.platformNumber (Booking.platformNumber b)
                         (platforms s),
                 linked_ticket s b))
       <$> filter (λ b, Booking.userId b = User.userId user) (bookings s)).
Proof.
  intros Huser. unfold history. rewrite Huser. cbn [snd]. split.
  - apply list_fmap_ext. intros i b _. by rewrite !dict_by_last.
  - intros Hts Hps. apply list_fmap_ext. intros i b _.
    unfold linked_ticket. by rewrite !dict_by_first.
Qed.

Section Flow.
Context `{DateTime}.

Lemma book_post_admitted (users : list User.t) (session : Session.t)
    (platform_number duration now_booking now_issue now_expiry : Z) (s : Store)
    (user : User.t) (expiry : Z) :
  get_logged_in_user users session = Some user →
  (check_platform_availability (seed_platforms s) platform_number).1 = true →
  datetime_add_hours now_expiry duration = Some expiry →
  book_post users session platform_number duration now_booking now_issue now_expiry s
  = (mk_reply None (Redirect "payment" None),
     Session.mk (Session.user_id session) (Session.user_name session)
                (Session.admin session) (Session.admin_name session)
                (Some (get_next_id (bookings s) Booking.bookingId))
                (Some (calculate_amount duration)),
     mk_store (platforms (seed_platforms s))
       (bookings s
        ++ [Booking.mk (get_next_id (bookings s) Booking.bookingId)
                       (User.userId user) platform_number (isoformat now_booking)
                       duration (get_next_id (tickets s) Ticket.ticketId)])
       (tickets s
        ++ [Ticket.mk (get_next_id (tickets s) Ticket.ticketId)
                      (isoformat now_issue) (isoformat expiry) PendingPayment
                      platform_number])
       (payments s)).
Proof.
  intros Huser Hcheck Hadd. unfold book_post. rewrite Huser. cbn zeta.
  destruct (seed_platforms_rest s) as (Hbs & Hts & Hps).
  destruct (check_platform_availability (seed_platforms s) platform_number)
    as [ok msg]. cbn in Hcheck. subst ok. cbn [negb].
  rewrite (create_booking_returns _ _ _ _ _ _ _ expiry Hadd).
  by rewrite Hbs, Hts, Hps.
Qed.

Lemma book_post_overflow (users : list User.t) (session : Session.t)
    (platform_number duration now_booking now_issue now_expiry : Z) (s : Store)
    (user : User.t) :
  get_logged_in_user users session = Some user →
  (check_platform_availability (seed_platforms s) platform_number).1 = true →
  datetime_add_hours now_expiry duration = None →
  book_post users session platform_number duration now_booking now_issue now_expiry s
  = (mk_reply None ServerError, session, seed_platforms s).
Proof.
  intros Huser Hcheck Hadd. unfold book_post. rewrite Huser. cbn zeta.
  destruct (check_platform_availability (seed_platforms s) platform_number)
    as [ok msg]. cbn in Hcheck. subst ok. cbn [negb].
  by rewrite (create_booking_raises _ _ _ _ _ _ _ Hadd).
Qed.

Lemma book_post_refused (users : list User.t) (session : Session.t)
    (platform_number duration now_booking now_issue now_expiry : Z) (s : Store)
    (user : User.t) :
  get_logged_in_user users session = Some user →
  (check_platform_availability (seed_platforms s) platform_number).1 = false →
  book_post users session platform_number duration now_booking now_issue now_expiry s
  = (mk_reply (Some ((check_platform_availability (seed_platforms s)
                        platform_number).2, "danger"))
              (Redirect "book" None),
     session, seed_platforms s).
Proof.
  intros Huser Hcheck. unfold book_post. rewrite Huser. cbn zeta.
  destruct (check_platform_availability (seed_platforms s) platform_number)
    as [ok msg]. cbn in Hcheck. by subst ok.
Qed.

Lemma book_post_to_book (users : list User.t) (session : Session.t)
    (platform_number duration now_booking now_issue now_expiry : Z) (s : Store)
    (user : User.t) :
  get_logged_in_user users session = Some user →
  (book_post users session platform_number duration
             now_booking now_issue now_expiry s).2
  = book (User.userId user) platform_number duration
         now_booking now_issue now_expiry (seed_platforms s).
Proof.
  intros Huser. unfold book_post, book. rewrite Huser. cbn zeta.
  destruct (check_platform_availability (seed_platforms s) platform_number)
    as [[] msg]; cbn [negb]; [|reflexivity].
  by destruct (create_booking _ _ _ _ _ _ _) as [[booking|] s'].
Qed.

(** For a logged-in user the booking view seeds an empty platform file and
    then does what [book] does for that user; on a platform file that is
    not empty it is [book] itself.  When the booking is admitted and the
    expiry time is a datetime the library can represent, the booking is
    stored and the session remembers its identifier and the fare of the
    duration.  When the expiry time is out of range, the request ends in
    the server error page: no booking is stored and the session is as it
    was.  A refused booking leaves the session as it was, too. *)
Theorem book_post_books (users : list User.t) (session : Session.t)
    (platform_number duration now_booking now_issue now_expiry : Z) (s : Store)
    (user : User.t) :
  get_logged_in_user users session = Some user →
  let '(r, session', s') :=
    book_post users session platform_number duration
              now_booking now_issue now_expiry s in
  s' = book (User.userId user) platform_number duration
            now_booking now_issue now_expiry (seed_platforms s)
  ∧ (platforms s ≠ [] →
     s' = book (User.userId user) platform_number duration
               now_booking now_issue now_expiry s)
  ∧ Session.user_id session' = Session.user_id session
  ∧ ((check_platform_availability (seed_platforms s) platform_number).1 = true →
     (∀ expiry, datetime_add_hours now_expiry duration = Some expiry →
        r = mk_reply None (Redirect "payment" None)
        ∧ length (bookings s') = S (length (bookings s))
        ∧ Session.current_booking_id session'
          = Some (get_next_id (bookings s) Booking.bookingId)
        ∧ Session.current_amount session' = Some (10 * duration))
     ∧ (datetime_add_hours now_expiry duration = None →
        r = mk_reply None ServerError
        ∧ session' = session ∧ s' = seed_platforms s))
  ∧ ((check_platform_availability (seed_platforms s) platform_number).1 = false →
     session' = session ∧ s' = seed_platforms s).
Proof.
  intros Huser.
  pose proof (book_post_to_book users session platform_number duration
                now_booking now_issue now_expiry s user Huser) as Hbook.
  pose proof (book_post_admitted users session platform_number duration
                now_booking now_issue now_expiry s user) as Hadmitted.
  pose proof (book_post_overflow users session platform_number duration
                now_booking now_issue now_expiry s user Huser) as Hoverflow.
  pose proof (book_post_refused users session platform_number duration
                now_booking now_issue now_expiry s user Huser) as Hrefused.
  destruct (book_post users session platform_number duration
                      now_booking now_issue now_expiry s) as [[r session'] s'].
  cbn [snd] in Hbook. split; [exact Hbook|]. split.
  { intros Hstocked. by rewrite Hbook, (seed_platforms_stocked s Hstocked). }
  split.
  { destruct (check_platform_availability (seed_platforms s) platform_number).1
      eqn:Hcheck.
    - destruct (datetime_add_hours now_expiry duration) as [expiry|] eqn:Hadd.
      + specialize (Hadmitted expiry Huser eq_refl eq_refl).
        by injection Hadmitted as _ -> _.
      + specialize (Hoverflow eq_refl eq_refl). by injection Hoverflow as _ -> _.
    - specialize (Hrefused eq_refl). by injection Hrefused as _ -> _. }
  split.
  - intros Hcheck. split.
    + intros expiry Hadd. specialize (Hadmitted expiry Huser Hcheck Hadd).
      injection Hadmitted as -> -> ->. cbn. rewrite length_app. cbn.
      split; [reflexivity|]. split; [lia|]. split; reflexivity.
    + intros Hadd. specialize (Hoverflow Hcheck Hadd). by injection Hoverflow as -> -> ->.
  - intros Hcheck. specialize (Hrefused Hcheck). by injection Hrefused as _ -> ->.
Qed.

(** A booking admitted through the booking view, with an expiry time the
    library can represent, and then paid through the payment view with the
    session the booking left: one payment is recorded for exactly that
    booking with the fare of its duration, and its ticket is active.  This
    needs a duration other than 0 and a booking file without negative
    identifiers. *)
Theorem book_then_pay (users : list User.t) (session : Session.t)
    (platform_number duration now_booking now_issue now_expiry now : Z) (s : Store)
    (user : User.t) (expiry : Z) :
  get_logged_in_user users session = Some user →
  (check_platform_availability (seed_platforms s) platform_number).1 = true →
  datetime_add_hours now_expiry duration = Some expiry →
  Forall (λ b, 0 ≤ Booking.bookingId b) (bookings s) →
  duration ≠ 0 →
  let '(r1, session', s1) :=
    book_post users session platform_number duration
              now_booking now_issue now_expiry s in
  let '(r2, s2) := payment_post users session' now s1 in
  ∃ booking payment,
    bookings s2 = bookings s ++ [booking]
    ∧ Booking.selectedDuration booking = duration
    ∧ payments s2 = payments s ++ [payment]
    ∧ Payment.bookingId payment = Booking.bookingId booking
    ∧ Payment.amount payment = calculate_amount (Booking.selectedDuration booking)
    ∧ Payment.paymentStatus payment = "SUCCESS"
    ∧ status_of s2 (Booking.ticketId booking) = Some Active
    ∧ r2 = mk_reply (Some ("Payment successful!", "success"))
                    (Redirect "ticket_details" (Some (Booking.bookingId booking))).
Proof.
  intros Huser Hcheck Hadd Hids Hduration.
  rewrite (book_post_admitted users session platform_number duration
             now_booking now_issue now_expiry s user expiry Huser Hcheck Hadd).
  set (booking := Booking.mk _ _ _ _ _ _).
  set (ticket := Ticket.mk _ _ _ _ _).
  set (s1 := mk_store _ _ _ _).
  unfold payment_post, get_logged_in_user in *. cbn [Session.user_id] in *.
  rewrite Huser. cbn zeta. cbn [Session.current_booking_id Session.current_amount].
  pose proof (get_next_id_from_one Booking.bookingId (bookings s) Hids) as Hpos.
  cbn [falsy default from_option id].
  assert (get_next_id (bookings s) Booking.bookingId ≠ 0) as Hid by lia.
  assert (calculate_amount duration ≠ 0) as Hfare by (unfold calculate_amount; lia).
  rewrite !bool_decide_eq_false_2 by assumption. cbn [orb].
  pose proof (process_payment_with_payment true
                (get_next_id (bookings s) Booking.bookingId)
                (calculate_amount duration) now s1) as Hpay.
  assert (find_by Booking.bookingId (get_next_id (bookings s) Booking.bookingId)
                  (bookings s1) = Some booking) as Hb.
  { by apply (find_by_fresh_snoc Booking.bookingId (bookings s) booking). }
  assert (linked_ticket s1 booking = Some ticket) as Ht.
  { by apply (find_by_fresh_snoc Ticket.ticketId (tickets s) ticket). }
  pose proof (process_payment_overwrites _ (calculate_amount duration) now s1
                booking ticket Hb Ht) as Hactive.
  unfold process_payment in *. cbn zeta in *.
  destruct (process_payment_with true _ _ now s1) as [[ok payment] s2].
  destruct Hpay as (-> & Hpayment & Hpayments & Hbookings & _).
  exists booking, payment. rewrite Hpayments, Hbookings, Hpayment.
  repeat split; try done.
Qed.
End Flow.

Section FlowEdges.
Context `{DateTime}.

(** A booking of duration 0 is admitted like any other, but its fare is 0
    and the payment view takes a fare of 0 for no booking at all: with the
    session the booking left, the payment view records nothing, changes
    nothing and sends the user back to the booking form, whenever it is
    asked.  The ticket stays in [Pending Payment].  The clock reading is a
    datetime, as every reading of the clock is. *)
Theorem zero_duration_cannot_be_paid (users : list User.t) (session : Session.t)
    (platform_number now_booking now_issue now_expiry now : Z) (s : Store)
    (user : User.t) :
  get_logged_in_user users session = Some user →
  (check_platform_availability (seed_platforms s) platform_number).1 = true →
  datetime_min ≤ now_expiry ≤ datetime_max →
  let '(r1, session', s1) :=
    book_post users session platform_number 0 now_booking now_issue now_expiry s in
  payment_post users session' now s1
  = (mk_reply (Some ("No booking to pay for.", "warning")) (Redirect "book" None), s1)
  ∧ ∃ ticket, tickets s1 = tickets s ++ [ticket]
              ∧ Ticket.status ticket = PendingPayment.
Proof.
  intros Huser Hcheck Hnow.
  assert (datetime_add_hours now_expiry 0 = Some now_expiry) as Hadd.
  { apply datetime_add_hours_Some. unfold timedelta_min, timedelta_max. lia. }
  rewrite (book_post_admitted users session platform_number 0
             now_booking now_issue now_expiry s user now_expiry Huser Hcheck Hadd).
  split.
  - unfold payment_post, get_logged_in_user in *. cbn [Session.user_id] in *.
    rewrite Huser. cbn zeta. cbn [Session.current_booking_id Session.current_amount].
    cbn [falsy]. rewrite (bool_decide_eq_true_2 (calculate_amount 0 = 0)) by reflexivity.
    by rewrite orb_true_r.
  - by eexists.
Qed.

(** Without a logged-in user the booking view, the payment view, the ticket
    view and the history view answer with the login redirect and leave the
    session and every file as they are; without the admin flag the two
    admin views do the same. *)
Theorem views_need_login (users : list User.t) (session : Session.t) (s : Store)
    (platform_number duration now_booking now_issue now_expiry now booking_id : Z)
    (action : string) (capacity : Z) :
  (get_logged_in_user users session = None →
   book_post users session platform_number duration now_booking now_issue now_expiry s
   = (please_login, session, s)
   ∧ payment_post users session now s = (please_login, s)
   ∧ ticket_details_view users session booking_id now s = (please_login, None, s)
   ∧ history users session s = (please_login, []))
  ∧ (require_admin session = false →
     admin_platforms session action platform_number capacity s = (admin_required, s)
     ∧ admin_bookings users session s = (admin_required, [])).
Proof.
  split.
  - intros Hnone. unfold book_post, payment_post, ticket_details_view, history.
    by rewrite Hnone.
  - intros Hno. unfold admin_platforms, admin_bookings. by rewrite Hno.
Qed.

(** The ticket view of the booking's owner changes the store exactly as
    [ticket_details] does, and the ticket it shows is the ticket that is
    stored afterwards under the booking's ticket identifier; so a ticket
    shown as [Active] with a well-formed expiry time has not run out at
    the time of the view. *)
Theorem ticket_details_view_shows_stored
    (users : list User.t) (session : Session.t) (booking_id now : Z) (s : Store)
    (user : User.t) :
  get_logged_in_user users session = Some user →
  let '(r, shown, s') := ticket_details_view users session booking_id now s in
  s' = ticket_details (User.userId user) booking_id now s
  ∧ ∀ booking ticket payment,
      shown = Some (booking, Some ticket, payment) →
      find_by Booking.bookingId booking_id (bookings s) = Some booking
      ∧ Booking.userId booking = User.userId user
      ∧ linked_ticket s' booking = Some ticket
      ∧ payment = find_by Payment.bookingId booking_id (payments s)
      ∧ ∀ expiry,
          Ticket.status ticket = Active →
          fromisoformat (Ticket.expiryTime ticket) = Some expiry →
          tzaware expiry = false →
          now ≤ instant expiry.
Proof.
  intros Huser. unfold ticket_details_view, ticket_details. rewrite Huser.
  cbn zeta.
  destruct (find_by Booking.bookingId _ _) as [booking|] eqn:Hb; [|by split].
  case_bool_decide as Howner; [by split|].
  destruct (find_by Ticket.ticketId _ _) as [ticket|] eqn:Ht; [|by split].
  split; [reflexivity|].
  intros b t p [= <- <- <-].
  apply find_by_Some in Ht as Hid. destruct Hid as [_ Hid].
  destruct (update_ticket_state_keeps_identity now ticket) as [Hsame _].
  split; [reflexivity|]. split; [by destruct (decide (Booking.userId booking
                                                     = User.userId user)); [|tauto]|].
  split; [|split; [reflexivity|]].
  - unfold linked_ticket.
    destruct (save_ticket_found (update_ticket_state now ticket) s ticket)
      as (idx & Hidx & _ & Hbefore & ->); [by rewrite Hsame, Hid|].
    cbn [tickets]. rewrite <- Hid, <- Hsame.
    by eapply find_by_insert_first.
  - intros expiry Hactive Hparse Hnaive.
    destruct (update_ticket_state_status now ticket) as [Hst|[_ Hexp]].
    + assert (Ticket.expiryTime (update_ticket_state now ticket)
              = Ticket.expiryTime ticket) as Hexpiry.
      { pose proof (update_ticket_state_identity now ticket) as Hidn.
        unfold ticket_identity in Hidn. by injection Hidn. }
      rewrite Hexpiry in Hparse. rewrite Hst in Hactive.
      pose proof (update_ticket_state_active now ticket Hactive) as Hupd.
      rewrite Hparse in Hupd. cbn in Hupd. unfold now_gt in Hupd.
      rewrite Hnaive in Hupd.
      destruct (Z.ltb_spec (instant expiry) now) as [Hlt|Hge]; [|exact Hge].
      rewrite Hupd in Hst. cbn in Hst. rewrite Hactive in Hst. discriminate Hst.
    + rewrite Hexp in Hactive. discriminate Hactive.
Qed.

End FlowEdges.

Lemma history_rows_witness :
  (history demo_users demo_session
           (@book_post micros_clock demo_users demo_session 2 2 0 0 0 demo_paid).2).2
  = [(Booking.mk 2 1 2 "0" 2 2, Some (Platform.mk 2 1),
      Some (Ticket.mk 2 "0" "7200000000" PendingPayment 2))].
Proof.
  destruct (history_rows demo_users demo_session
              (@book_post micros_clock demo_users demo_session 2 2 0 0 0 demo_paid).2
              (User.mk 1 "Asha" "asha@example.org" "pw1") eq_refl) as [-> _].
  reflexivity.
Defined.

Lemma book_post_books_witness :
  (let '(r, session', s') :=
     @book_post micros_clock demo_users demo_session 1 2 0 0 0 (init []) in
   platforms s' = [Platform.mk 1 200; Platform.mk 2 150]
   ∧ length (bookings s') = 1%nat
   ∧ Session.current_booking_id session' = Some 1
   ∧ Session.current_amount session' = Some 20)
  ∧ (let '(r, session', s') :=
       @book_post micros_clock demo_users demo_session 1 100000000 0 0 0 (init []) in
     r = mk_reply None ServerError
     ∧ session' = demo_session
     ∧ s' = seed_platforms (init [])).
Proof.
  split.
  - pose proof (@book_post_books micros_clock demo_users demo_session 1 2 0 0 0
                  (init []) (User.mk 1 "Asha" "asha@example.org" "pw1") eq_refl)
      as Hspec.
    destruct (@book_post micros_clock demo_users demo_session 1 2 0 0 0 (init []))
      as [[r session'] s'].
    destruct Hspec as (Hstore & _ & _ & Hadmitted & _).
    destruct (Hadmitted eq_refl) as [Hin _].
    destruct (Hin 7200000000 eq_refl) as (_ & Hlen & -> & ->).
    rewrite Hlen, Hstore. by repeat split.
  - pose proof (@book_post_books micros_clock demo_users demo_session 1 100000000
                  0 0 0 (init []) (User.mk 1 "Asha" "asha@example.org" "pw1") eq_refl)
      as Hspec.
    destruct (@book_post micros_clock demo_users demo_session 1 100000000 0 0 0
                (init [])) as [[r session'] s'].
    destruct Hspec as (_ & _ & _ & Hadmitted & _).
    destruct (Hadmitted eq_refl) as [_ Hout]. exact (Hout eq_refl).
Defined.

Lemma book_then_pay_witness :
  let '(r1, session', s1) :=
    @book_post micros_clock demo_users demo_session 1 2 0 0 0 (init []) in
  let '(r2, s2) := @payment_post micros_clock demo_users session' 5 s1 in
  ∃ booking payment,
    bookings s2 = bookings (init []) ++ [booking]
    ∧ Booking.selectedDuration booking = 2
    ∧ payments s2 = payments (init []) ++ [payment]
    ∧ Payment.bookingId payment = Booking.bookingId booking
    ∧ Payment.amount payment = calculate_amount (Booking.selectedDuration booking)
    ∧ Payment.paymentStatus payment = "SUCCESS"
    ∧ status_of s2 (Booking.ticketId booking) = Some Active
    ∧ r2 = mk_reply (Some ("Payment successful!", "success"))
                    (Redirect "ticket_details" (Some (Booking.bookingId booking))).
Proof.
  apply (@book_then_pay micros_clock demo_users demo_session 1 2 0 0 0 5 (init [])
           (User.mk 1 "Asha" "asha@example.org" "pw1") 7200000000);
    [reflexivity|reflexivity|reflexivity|constructor|discriminate].
Defined.

Lemma zero_duration_cannot_be_paid_witness :
  let '(r1, session', s1) :=
    @book_post micros_clock demo_users demo_session 1 0 0 0 0 (init []) in
  @payment_post micros_clock demo_users session' 5 s1
  = (mk_reply (Some ("No booking to pay for.", "warning")) (Redirect "book" None), s1)
  ∧ ∃ ticket, tickets s1 = tickets (init []) ++ [ticket]
              ∧ Ticket.status ticket = PendingPayment.
Proof.
  apply (@zero_duration_cannot_be_paid micros_clock demo_users demo_session 1 0 0 0 5
           (init []) (User.mk 1 "Asha" "asha@example.org" "pw1"));
    [reflexivity|reflexivity|unfold datetime_min, datetime_max; lia].
Defined.

Lemma ticket_details_view_shows_stored_witness :
  let s := (@book_post micros_clock demo_users demo_session 2 2 0 0 0 demo_paid).2 in
  let '(r, shown, s') :=
    @ticket_details_view micros_clock demo_users demo_session 2 9 s in
  s' = @ticket_details micros_clock 1 2 9 s.
Proof.
  cbn zeta.
  pose proof (@ticket_details_view_shows_stored micros_clock demo_users demo_session
                2 9 (@book_post micros_clock demo_users demo_session 2 2 0 0 0
                       demo_paid).2
                (User.mk 1 "Asha" "asha@example.org" "pw1") eq_refl) as Hspec.
  destruct (@ticket_details_view micros_clock demo_users demo_session 2 9 _)
    as [[r shown] s'].
  by destruct Hspec as [-> _].
Defined.


(** ** What every sequence of view requests keeps *)

Section Served.
Context `{DateTime}.

Lemma book_post_store (users : list User.t) (session : Session.t)
    (platform_number duration now_booking now_issue now_expiry : Z) (s : Store) :
  (book_post users session platform_number duration
             now_booking now_issue now_expiry s).2
  = match get_logged_in_user users session with
    | Some user => book (User.userId user) platform_number duration
                        now_booking now_issue now_expiry (seed_platforms s)
    | None => s
    end.
Proof.
  destruct (get_logged_in_user users session) as [user|] eqn:Huser.
  - by apply book_post_to_book.
  - unfold book_post. by rewrite Huser.
Qed.

Lemma payment_post_store (users : list User.t) (session : Session.t) (now : Z)
    (s : Store) :
  (payment_post users session now s).2 = s
  ∨ ∃ booking_id amount,
      (payment_post users session now s).2
      = snd (process_payment booking_id amount now s).
Proof.
  unfold payment_post. destruct (get_logged_in_user users session); [|by left].
  cbn zeta. destruct (_ || _); [by left|]. right.
  exists (default 0 (Session.current_booking_id session)),
         (default 0 (Session.current_amount session)).
  by destruct (process_payment _ _ now s) as [[[] payment] s'].
Qed.

Lemma ticket_details_view_store (users : list User.t) (session : Session.t)
    (booking_id now : Z) (s : Store) :
  (ticket_details_view users session booking_id now s).2
  = match get_logged_in_user users session with
    | Some user => ticket_details (User.userId user) booking_id now s
    | None => s
    end.
Proof.
  unfold ticket_details_view, ticket_details.
  destruct (get_logged_in_user users session); [|reflexivity]. cbn zeta.
  destruct (find_by Booking.bookingId _ _); [|reflexivity].
  case_bool_decide; [reflexivity|].
  by destruct (find_by Ticket.ticketId _ _).
Qed.

(** A view request changes the store as one step of the booking core does,
    possibly after seeding the platform file, or not at all. *)
Lemma serve_cases (users : list User.t) (s : Store) (r : request) :
  serve users s r = s
  ∨ ∃ o, serve users s r = step s o ∨ serve users s r = step (seed_platforms s) o.
Proof.
  destruct r as [session pn d n1 n2 n3|session now|session b now]; cbn [serve].
  - rewrite book_post_store. destruct (get_logged_in_user users session) as [user|];
      [|by left].
    right. exists (Book (User.userId user) pn d n1 n2 n3). by right.
  - destruct (payment_post_store users session now s) as [->|(b & a & ->)];
      [by left|].
    right. exists (Pay b a now). by left.
  - rewrite ticket_details_view_store.
    destruct (get_logged_in_user users session) as [user|]; [|by left].
    right. exists (View (User.userId user) b now). by left.
Qed.

Lemma serve_all_invariant (users : list User.t) (I : Store → Prop) :
  (∀ s, I s → I (seed_platforms s)) →
  (∀ s o, I s → I (step s o)) →
  ∀ requests s, I s → I (serve_all users requests s).
Proof.
  intros Hseed Hstep requests.
  induction requests as [|r requests IH]; intros s Hs; [exact Hs|].
  cbn [serve_all foldl]. apply IH.
  destruct (serve_cases users s r) as [->|(o & [->| ->])]; auto.
Qed.

(** View requests only ever append to the booking file and the payment
    file, and a stored ticket keeps its identifier, times and platform for
    good: below any sequence of booking, payment and ticket views, with
    whatever sessions, the old bookings, the old payments and the
    identities of the old tickets are still there, in place. *)
Theorem serve_all_appends_only (users : list User.t) (requests : list request)
    (s : Store) :
  bookings s `prefix_of` bookings (serve_all users requests s)
  ∧ payments s `prefix_of` payments (serve_all users requests s)
  ∧ (ticket_identity <$> tickets s)
      `prefix_of` (ticket_identity <$> tickets (serve_all users requests s)).
Proof.
  apply (serve_all_invariant users
           (λ s', bookings s `prefix_of` bookings s'
                  ∧ payments s `prefix_of` payments s'
                  ∧ (ticket_identity <$> tickets s)
                      `prefix_of` (ticket_identity <$> tickets s'))).
  - intros s' Hs'. by destruct (seed_platforms_rest s') as (-> & -> & ->).
  - intros s' o (Hb & Hp & Ht).
    destruct (run_appends_only [o] s') as (Hb' & Hp' & Ht').
    cbn in Hb', Hp', Ht'. repeat split; etrans; eauto.
  - done.
Qed.

(** A ticket that is stored stays stored, and after any sequence of view
    requests its status is the one it had, [Active] or [Expired]: the views
    never cancel a ticket and never put a ticket back to
    [Pending Payment]. *)
Theorem serve_all_status (users : list User.t) (requests : list request) (s : Store)
    (ticket_id : Z) (old : string) :
  status_of s ticket_id = Some old →
  ∃ new, status_of (serve_all users requests s) ticket_id = Some new
         ∧ (new = old ∨ new = Active ∨ new = Expired).
Proof.
  intros Hold.
  apply (serve_all_invariant users
           (λ s', ∃ new, status_of s' ticket_id = Some new
                         ∧ (new = old ∨ new = Active ∨ new = Expired))).
  - intros s' Hs'. unfold status_of in *.
    by destruct (seed_platforms_rest s') as (_ & -> & _).
  - intros s' o (mid & Hmid & Hedge).
    destruct (step_status s' o ticket_id mid Hmid) as (new & Hnew & Hlast).
    exists new. split; [exact Hnew|].
    destruct Hedge as [-> | [-> | ->]]; destruct Hlast as [-> | [-> | [_ ->]]]; auto.
  - exists old. auto.
Qed.

(** In every store the views produce from a fresh installation each ticket
    is [Pending Payment], [Active] or [Expired] and each payment is a
    [SUCCESS]: the running code never cancels a ticket and never records a
    failed payment. *)
Theorem serve_all_never_cancels (users : list User.t) (requests : list request)
    (plats : list Platform.t) :
  let s := serve_all users requests (init plats) in
  Forall (λ t, Ticket.status t ∈ [PendingPayment; Active; Expired]) (tickets s)
  ∧ Forall (λ p, Payment.paymentStatus p = "SUCCESS") (payments s).
Proof.
  apply (serve_all_invariant users
           (λ s, Forall (λ t, Ticket.status t ∈ [PendingPayment; Active; Expired])
                        (tickets s)
                 ∧ Forall (λ p, Payment.paymentStatus p = "SUCCESS") (payments s))).
  - intros s Hs. by destruct (seed_platforms_rest s) as (_ & -> & ->).
  - intros s o [Ht Hp]. by apply step_statuses.
  - split; constructor.
Qed.

(** Only the payment view adds active tickets: the booking view leaves the
    number of active tickets of every platform as it is, and the ticket
    view can only lower it. *)
Theorem only_payment_view_fills_platforms
    (users : list User.t) (session : Session.t)
    (platform_number duration now_booking now_issue now_expiry : Z)
    (booking_id now : Z) (s : Store) (pn : Z) :
  active_tickets
    (tickets (book_post users session platform_number duration
                        now_booking now_issue now_expiry s).2) pn
  = active_tickets (tickets s) pn
  ∧ active_tickets (tickets (ticket_details_view users session booking_id now s).2) pn
    ≤ active_tickets (tickets s) pn.
Proof.
  rewrite book_post_store, ticket_details_view_store.
  destruct (get_logged_in_user users session) as [user|]; [|done].
  destruct (only_payments_fill_platforms (User.userId user) platform_number duration
              now_booking now_issue now_expiry booking_id now (seed_platforms s) pn)
    as [Hbook _].
  destruct (only_payments_fill_platforms (User.userId user) platform_number duration
              now_booking now_issue now_expiry booking_id now s pn)
    as [_ Hview].
  destruct (seed_platforms_rest s) as (_ & Hts & _).
  split; [by rewrite Hbook, Hts|exact Hview].
Qed.

(** An unpaid booking takes no capacity: on a platform file that is not
    empty, the availability check answers for every platform after a
    booking view what it answered before. *)
Theorem book_post_keeps_availability
    (users : list User.t) (session : Session.t)
    (platform_number duration now_booking now_issue now_expiry : Z)
    (s : Store) (pn : Z) :
  platforms s ≠ [] →
  check_platform_availability
    (book_post users session platform_number duration
               now_booking now_issue now_expiry s).2 pn
  = check_platform_availability s pn.
Proof.
  intros Hstocked. rewrite book_post_store.
  destruct (get_logged_in_user users session) as [user|]; [|reflexivity].
  rewrite (seed_platforms_stocked s Hstocked). apply book_keeps_availability.
Qed.
End Served.

Lemma serve_all_status_witness :
  let '(r, session', s) := demo_second_booking in
  status_of s 2 = Some PendingPayment
  ∧ status_of (@serve_all micros_clock demo_users [PaymentPost session' 5] s) 2
    = Some Active
  ∧ status_of (@serve_all micros_clock demo_users
                 [PaymentPost session' 5; TicketView demo_session 2 7200000001] s) 2
    = Some Expired
  ∧ ∃ new,
      status_of (@serve_all micros_clock demo_users
                   [PaymentPost session' 5; TicketView demo_session 2 7200000001] s) 2
      = Some new
      ∧ (new = PendingPayment ∨ new = Active ∨ new = Expired).
Proof.
  destruct demo_second_booking as [[r session'] s] eqn:Hdemo.
  vm_compute in Hdemo. injection Hdemo as <- <- <-.
  split; [reflexivity|]. split; [reflexivity|]. split; [reflexivity|].
  apply (@serve_all_status micros_clock demo_users). reflexivity.
Defined.

Lemma book_post_keeps_availability_witness :
  check_platform_availability
    (@book_post micros_clock demo_users demo_session 2 2 0 0 0 demo_paid).2 2
  = check_platform_availability demo_paid 2.
Proof.
  apply (@book_post_keeps_availability micros_clock demo_users demo_session
           2 2 0 0 0 demo_paid 2).
  discriminate.
Defined.

Section ServedNumbers.
Context `{DateTime}.

(** In every store the views produce from empty booking, ticket and
    payment files, whatever the sessions and however the platform file was
    seeded, bookings, tickets and payments carry the identifiers 1, 2, 3,
    ... in file order, there are as many tickets as bookings, and each
    booking carries its own number as [ticketId]. *)
Theorem serve_all_numbers_records (users : list User.t) (requests : list request)
    (plats : list Platform.t) :
  let s := serve_all users requests (init plats) in
  numbered Booking.bookingId (bookings s)
  ∧ numbered Ticket.ticketId (tickets s)
  ∧ numbered Payment.paymentId (payments s)
  ∧ length (tickets s) = length (bookings s)
  ∧ Booking.ticketId <$> bookings s = Booking.bookingId <$> bookings s.
Proof.
  apply (serve_all_invariant users
           (λ s, numbered Booking.bookingId (bookings s)
                 ∧ numbered Ticket.ticketId (tickets s)
                 ∧ numbered Payment.paymentId (payments s)
                 ∧ length (tickets s) = length (bookings s)
                 ∧ Booking.ticketId <$> bookings s = Booking.bookingId <$> bookings s)).
  - intros s Hs. by destruct (seed_platforms_rest s) as (-> & -> & ->).
  - intros s o Hs. by apply step_numbers_records.
  - repeat split.
Qed.
End ServedNumbers.
